(** * validate_toml.py: a shallow embedding and its properties

    The script opens [.gemini/commands/refactor/surgical.toml] in binary
    mode, hands the file object to [tomllib.load], and prints one line:
    [TOML is valid] when decoding returns, [TOML error: <message>] when an
    instance of [Exception] was raised inside the [try] block.

    Layout of the development:
    - [Text]      decimal and hexadecimal rendering, [repr] of a text;
    - [PyExc]     Python exception values, the class hierarchy, [str(e)];
    - [Utf8]      [bytes.decode()] with CPython's strict UTF-8 decoder;
    - [Tomllib]   the statement loop of [tomllib.loads] and the helpers it
                  calls; the three statement rules are an interface;
    - [Runtime]   the state the script acts on (file system, open-file
                  table, standard output, log of effects), a state and
                  exception monad with [try]/[except] and [with], [open],
                  [read], [close], [print] and [tomllib.load];
    - [Script]    lines 4 to 9 of [validate_toml.py];
    - [Startup]   the two [import] statements, the bytecode cache they may
                  write, and the whole program;
    - [Outcome]   the vocabulary of the properties;
    - [BoolRules], [Examples]  a small implementation of the statement
                  rules and the file systems of the examples;
    - the lemmas on each module, and the properties of the script. *)

From Stdlib Require Import ZArith NArith List String Ascii Lia Bool.
From Stdlib.Strings Require Import Byte.
From Stdlib Require Import DecimalString Decimal.
From stdpp Require Import base list strings gmap.

Local Open Scope string_scope.
Local Open Scope nat_scope.

(** ** Text helpers shared by the modules *)

Module Text.

(** Decimal rendering of a non-negative Python [int], as [%d] and [{n}] do. *)
Definition dec (n : nat) : string := NilZero.string_of_uint (Nat.to_uint n).

Definition hex_digit (n : nat) : ascii :=
  match n with
  | 0 => "0" | 1 => "1" | 2 => "2" | 3 => "3" | 4 => "4" | 5 => "5"
  | 6 => "6" | 7 => "7" | 8 => "8" | 9 => "9" | 10 => "a" | 11 => "b"
  | 12 => "c" | 13 => "d" | 14 => "e" | _ => "f"
  end%char.

(** [%02x] of a value below 256. *)
Definition hex2 (n : nat) : string :=
  String (hex_digit (n / 16)) (String (hex_digit (n mod 16)) EmptyString).

Definition newline : ascii := "010"%char.
Definition apostrophe : ascii := "'"%char.
Definition dquote : ascii := ascii_of_nat 34.

(** A text followed by the line feed that ends its line. *)
Definition line (s : string) : string := s ++ String newline EmptyString.

Fixpoint has_char (c : ascii) (s : string) : bool :=
  match s with
  | EmptyString => false
  | String a r => Ascii.eqb a c || has_char c r
  end.

(** [repr(s)] of a [str] whose characters are ASCII: the quote is the
    apostrophe unless the text holds an apostrophe and no double quote;
    backslash, the chosen quote, tab, line feed and carriage return get
    their two-character escapes, the other control characters [\xNN]. *)
Definition repr_char (quote : ascii) (c : ascii) : string :=
  let n := nat_of_ascii c in
  if Ascii.eqb c "\"%char then "\\"
  else if Ascii.eqb c quote then String "\"%char (String c EmptyString)
  else if n =? 9 then "\t"
  else if n =? 10 then "\n"
  else if n =? 13 then "\r"
  else if (n <? 32) || (126 <? n) then "\x" ++ hex2 n
  else String c EmptyString.

Fixpoint repr_body (quote : ascii) (s : string) : string :=
  match s with
  | EmptyString => EmptyString
  | String c r => repr_char quote c ++ repr_body quote r
  end.

Definition repr (s : string) : string :=
  let quote : ascii :=
    if has_char apostrophe s && negb (has_char dquote s)
    then dquote else apostrophe in
  String quote (repr_body quote s ++ String quote EmptyString).

End Text.

(** ** Exceptions *)

Module PyExc.

(** The built-in classes the script can meet, and [tomllib.TOMLDecodeError]
    ([class TOMLDecodeError(ValueError)]). *)
Inductive exc_class :=
  | BaseException | SystemExit | KeyboardInterrupt | GeneratorExit
  | Exception
  | OSError | FileNotFoundError | PermissionError | IsADirectoryError
  | ValueError | UnicodeError | UnicodeDecodeError | TOMLDecodeError
  | RuntimeError | RecursionError.

Definition exc_class_eqb (a b : exc_class) : bool :=
  match a, b with
  | BaseException, BaseException | SystemExit, SystemExit
  | KeyboardInterrupt, KeyboardInterrupt | GeneratorExit, GeneratorExit
  | Exception, Exception | OSError, OSError
  | FileNotFoundError, FileNotFoundError | PermissionError, PermissionError
  | IsADirectoryError, IsADirectoryError | ValueError, ValueError
  | UnicodeError, UnicodeError | UnicodeDecodeError, UnicodeDecodeError
  | TOMLDecodeError, TOMLDecodeError
  | RuntimeError, RuntimeError | RecursionError, RecursionError => true
  | _, _ => false
  end.

(** The single base class of each class ([__base__]). *)
Definition base (c : exc_class) : option exc_class :=
  match c with
  | BaseException => None
  | SystemExit | KeyboardInterrupt | GeneratorExit | Exception =>
      Some BaseException
  | OSError | ValueError | RuntimeError => Some Exception
  | FileNotFoundError | PermissionError | IsADirectoryError => Some OSError
  | UnicodeError | TOMLDecodeError => Some ValueError
  | UnicodeDecodeError => Some UnicodeError
  | RecursionError => Some RuntimeError
  end.

Fixpoint subclass_within (depth : nat) (c d : exc_class) : bool :=
  exc_class_eqb c d ||
  match depth with
  | 0 => false
  | S k => match base c with
           | Some b => subclass_within k b d
           | None => false
           end
  end.

(** [issubclass(c, d)]; no chain of bases is longer than five. *)
Definition issubclass (c d : exc_class) : bool := subclass_within 5 c d.

(** Exception values, by the shape of their constructor arguments. *)
Inductive exn :=
  | OSErr (cls : exc_class) (errno : nat) (strerror : string)
          (filename : option string)
  | UnicodeDecodeErr (encoding : string) (object : list byte)
                     (start stop : nat) (reason : string)
  | MsgExn (cls : exc_class) (msg : string)
  | BareExn (cls : exc_class).

Definition class_of (e : exn) : exc_class :=
  match e with
  | OSErr c _ _ _ => c
  | UnicodeDecodeErr _ _ _ _ _ => UnicodeDecodeError
  | MsgExn c _ => c
  | BareExn c => c
  end.

(** [isinstance(e, c)], the test an [except c] clause makes. *)
Definition isinstance (e : exn) (c : exc_class) : bool :=
  issubclass (class_of e) c.

(** [str(e)], which is what [{e}] in an f-string inserts.
    [OSError.__str__]: [[Errno n] strerror: 'filename'] (without the
    file name part when there is none). [UnicodeDecodeError.__str__]: one
    format when the range is a single byte inside the object, another
    otherwise. An exception built from one message prints the message, one
    built from nothing prints the empty text. *)
Definition py_str (e : exn) : string :=
  match e with
  | OSErr _ errno strerror filename =>
      "[Errno " ++ Text.dec errno ++ "] " ++ strerror ++
      match filename with
      | Some f => ": " ++ Text.repr f
      | None => ""
      end
  | UnicodeDecodeErr encoding object start stop reason =>
      match object !! start with
      | Some b =>
          if stop =? start + 1 then
            "'" ++ encoding ++ "' codec can't decode byte 0x" ++
            Text.hex2 (N.to_nat (Byte.to_N b)) ++ " in position " ++
            Text.dec start ++ ": " ++ reason
          else
            "'" ++ encoding ++ "' codec can't decode bytes in position " ++
            Text.dec start ++ "-" ++ Text.dec (stop - 1) ++ ": " ++ reason
      | None =>
          "'" ++ encoding ++ "' codec can't decode bytes in position " ++
          Text.dec start ++ "-" ++ Text.dec (stop - 1) ++ ": " ++ reason
      end
  | MsgExn _ msg => msg
  | BareExn _ => ""
  end.

End PyExc.

(** ** [bytes.decode()]: CPython's strict UTF-8 decoder *)

Module Utf8.

Local Open Scope N_scope.

Definition bv (b : byte) : N := Byte.to_N b.

(** [IS_CONTINUATION_BYTE]: [0x80 <= ch < 0xC0]. *)
Definition is_continuation (c : N) : bool := (128 <=? c) && (c <? 192).

(** Where decoding stopped: [start], [end] and [reason] of the
    [UnicodeDecodeError]. *)
Inductive reason := InvalidStart | InvalidContinuation | UnexpectedEnd.

Definition reason_text (r : reason) : string :=
  match r with
  | InvalidStart => "invalid start byte"
  | InvalidContinuation => "invalid continuation byte"
  | UnexpectedEnd => "unexpected end of data"
  end.

Record failure := { f_start : nat; f_stop : nat; f_reason : reason }.

Definition invalid_start (pos : nat) : failure :=
  {| f_start := pos; f_stop := (pos + 1)%nat; f_reason := InvalidStart |}.

(** [n] is how many bytes of the sequence were accepted before the bad one. *)
Definition invalid_continuation (pos n : nat) : failure :=
  {| f_start := pos; f_stop := (pos + n)%nat;
     f_reason := InvalidContinuation |}.

Definition unexpected_end (pos stop : nat) : failure :=
  {| f_start := pos; f_stop := stop; f_reason := UnexpectedEnd |}.

(** The decoder, one character per step. [pos] is the byte offset of [bs]
    in the whole object. The cases follow the lead byte: one byte below
    0x80; 0xC2..0xDF start two bytes; 0xE0..0xEF three, where 0xE0 wants a
    second byte from 0xA0 (no overlong form) and 0xED one below 0xA0 (no
    surrogate); 0xF0..0xF4 four, where 0xF0 wants a second byte from 0x90
    and 0xF4 one below 0x90; every other lead byte is an invalid start. A
    sequence cut short by the end of the data is reported only after the
    bytes that are present have been checked. *)
Fixpoint decode_from (bs : list byte) (pos : nat) : failure + list N :=
  let stop := (pos + length bs)%nat in
  match bs with
  | [] => inr []
  | b0 :: r0 =>
    let ch := bv b0 in
    if ch <? 128 then
      match decode_from r0 (pos + 1)%nat with
      | inl f => inl f
      | inr s => inr (ch :: s)
      end
    else if ch <? 194 then inl (invalid_start pos)
    else if ch <? 224 then
      match r0 with
      | [] => inl (unexpected_end pos stop)
      | b1 :: r1 =>
        let ch2 := bv b1 in
        if negb (is_continuation ch2) then inl (invalid_continuation pos 1)
        else
          match decode_from r1 (pos + 2)%nat with
          | inl f => inl f
          | inr s => inr ((N.land ch 31 * 64 + N.land ch2 63) :: s)
          end
      end
    else if ch <? 240 then
      match r0 with
      | [] => inl (unexpected_end pos stop)
      | b1 :: r1 =>
        let ch2 := bv b1 in
        if negb (is_continuation ch2)
           || (if ch2 <? 160 then ch =? 224 else ch =? 237)
        then inl (invalid_continuation pos 1)
        else
          match r1 with
          | [] => inl (unexpected_end pos stop)
          | b2 :: r2 =>
            let ch3 := bv b2 in
            if negb (is_continuation ch3)
            then inl (invalid_continuation pos 2)
            else
              match decode_from r2 (pos + 3)%nat with
              | inl f => inl f
              | inr s =>
                  inr ((N.land ch 15 * 4096 + N.land ch2 63 * 64
                        + N.land ch3 63) :: s)
              end
          end
      end
    else if ch <? 245 then
      match r0 with
      | [] => inl (unexpected_end pos stop)
      | b1 :: r1 =>
        let ch2 := bv b1 in
        if negb (is_continuation ch2)
           || (if ch2 <? 144 then ch =? 240 else ch =? 244)
        then inl (invalid_continuation pos 1)
        else
          match r1 with
          | [] => inl (unexpected_end pos stop)
          | b2 :: r2 =>
            let ch3 := bv b2 in
            if negb (is_continuation ch3)
            then inl (invalid_continuation pos 2)
            else
              match r2 with
              | [] => inl (unexpected_end pos stop)
              | b3 :: r3 =>
                let ch4 := bv b3 in
                if negb (is_continuation ch4)
                then inl (invalid_continuation pos 3)
                else
                  match decode_from r3 (pos + 4)%nat with
                  | inl f => inl f
                  | inr s =>
                      inr ((N.land ch 7 * 262144 + N.land ch2 63 * 4096
                            + N.land ch3 63 * 64 + N.land ch4 63) :: s)
                  end
              end
          end
      end
    else inl (invalid_start pos)
  end.

(** [b.decode()]: the text, or the [UnicodeDecodeError] it raises. *)
Definition decode (b : list byte) : PyExc.exn + list N :=
  match decode_from b 0 with
  | inl f => inl (PyExc.UnicodeDecodeErr "utf-8" b (f_start f) (f_stop f)
                    (reason_text (f_reason f)))
  | inr s => inr s
  end.

End Utf8.

(** ** [tomllib]: the decoder the script calls

    [tomllib] is Python's standard-library TOML decoder
    ([Lib/tomllib/_parser.py]). The entry points and the statement loop are
    embedded here as they are written; a [str] is the list of its code
    points and a set of characters its membership test. The three statement
    rules ([key_value_rule], [create_list_rule], [create_dict_rule]) and the
    [Output] they build are an interface, [Rules], so that what is proved
    holds for every implementation of the rules. *)

Module Tomllib.

Import PyExc.

Definition charset := N -> bool.

Definition in_range (lo hi c : N) : bool := ((lo <=? c) && (c <=? hi))%N.

(** [ASCII_CTRL = frozenset(chr(i) for i in range(32)) | frozenset(chr(127))] *)
Definition ASCII_CTRL : charset := fun c => ((c <? 32) || (c =? 127))%N.

(** [ILLEGAL_BASIC_STR_CHARS = ASCII_CTRL - frozenset("\t")] *)
Definition ILLEGAL_BASIC_STR_CHARS : charset :=
  fun c => ASCII_CTRL c && negb (c =? 9)%N.

(** [ILLEGAL_COMMENT_CHARS = ILLEGAL_BASIC_STR_CHARS] *)
Definition ILLEGAL_COMMENT_CHARS : charset := ILLEGAL_BASIC_STR_CHARS.

(** [TOML_WS = frozenset(" \t")] *)
Definition TOML_WS : charset := fun c => ((c =? 32) || (c =? 9))%N.

(** [BARE_KEY_CHARS = frozenset(string.ascii_letters + string.digits + "-_")] *)
Definition BARE_KEY_CHARS : charset :=
  fun c => in_range 97 122 c || in_range 65 90 c || in_range 48 57 c
           || (c =? 45)%N || (c =? 95)%N.

(** [KEY_INITIAL_CHARS]: [BARE_KEY_CHARS] with the double quote (34) and
    the apostrophe (39). *)
Definition KEY_INITIAL_CHARS : charset :=
  fun c => BARE_KEY_CHARS c || (c =? 34)%N || (c =? 39)%N.

Definition LF : N := 10%N.

(** The code points of a literal written in the source. *)
Fixpoint codes (s : string) : list N :=
  match s with
  | EmptyString => []
  | String c r => N_of_ascii c :: codes r
  end.

(** [repr] of a one-character [str]; the callers pass control characters. *)
Definition repr_code (c : N) : string :=
  Text.repr (String (ascii_of_N c) EmptyString).

(** [s.replace("\r\n", "\n")] *)
Fixpoint replace_crlf (s : list N) : list N :=
  match s with
  | [] => []
  | c :: r =>
      match r with
      | d :: r' =>
          if ((c =? 13) && (d =? 10))%N then LF :: replace_crlf r'
          else c :: replace_crlf r
      | [] => [c]
      end
  end.

(** [src.count("\n", 0, pos)] *)
Definition count_lf (src : list N) (pos : nat) : nat :=
  length (filter (fun c => (c =? LF)%N = true) (take pos src)).

(** The greatest index below [stop] that holds a line feed, scanning [l]
    from index [i]: [src.rindex("\n", 0, pos)]. *)
Fixpoint rindex_lf_from (l : list N) (i stop : nat) (last : option nat)
  : option nat :=
  match l with
  | [] => last
  | c :: r =>
      if stop <=? i then last
      else rindex_lf_from r (S i) stop (if (c =? LF)%N then Some i else last)
  end.

Definition rindex_lf (src : list N) (pos : nat) : option nat :=
  rindex_lf_from src 0 pos None.

(** [coord_repr], the local function of [suffixed_err]. [rindex] cannot
    fail where it is called: a line number above one means a line feed
    before [pos]. *)
Definition coord_repr (src : list N) (pos : nat) : string :=
  if length src <=? pos then "end of document"
  else
    let line := count_lf src pos + 1 in
    let column :=
      if line =? 1 then pos + 1
      else match rindex_lf src pos with
           | Some i => pos - i
           | None => pos + 1
           end in
    "line " ++ Text.dec line ++ ", column " ++ Text.dec column.

(** [suffixed_err(src, pos, msg)] *)
Definition suffixed_err (src : list N) (pos : nat) (msg : string) : exn :=
  MsgExn TOMLDecodeError (msg ++ " (at " ++ coord_repr src pos ++ ")").

(** [skip_chars]: the loop runs over the text from [pos] on; indexing past
    the end raises [IndexError], which ends it. *)
Fixpoint skip_chars_in (rest : list N) (pos : nat) (chars : charset) : nat :=
  match rest with
  | [] => pos
  | c :: r => if chars c then skip_chars_in r (S pos) chars else pos
  end.

Definition skip_chars (src : list N) (pos : nat) (chars : charset) : nat :=
  skip_chars_in (drop pos src) pos chars.

Fixpoint starts_with (l prefix : list N) : bool :=
  match prefix, l with
  | [], _ => true
  | p :: ps, c :: r => (c =? p)%N && starts_with r ps
  | _ :: _, [] => false
  end.

(** [src.index(expect, pos)]: the least index from [pos] on at which
    [expect] occurs; [None] stands for [ValueError]. [rest] is the text
    from [pos] on. *)
Fixpoint index_in (rest : list N) (pos : nat) (expect : list N)
  : option nat :=
  if starts_with rest expect then Some pos
  else match rest with
       | [] => None
       | _ :: r => index_in r (S pos) expect
       end.

Definition index (src : list N) (expect : list N) (pos : nat) : option nat :=
  if length src <? pos then None else index_in (drop pos src) pos expect.

(** The first position from [pos] on, within [n] characters, whose
    character is in [error_on]. *)
Fixpoint first_in (rest : list N) (pos n : nat) (error_on : charset)
  : option (nat * N) :=
  match n, rest with
  | S k, c :: r =>
      if error_on c then Some (pos, c) else first_in r (S pos) k error_on
  | _, _ => None
  end.

(** [skip_until(src, pos, expect, error_on=..., error_on_eof=...)] *)
Definition skip_until (src : list N) (pos : nat) (expect : string)
    (error_on : charset) (error_on_eof : bool) : exn + nat :=
  let located : exn + nat :=
    match index src (codes expect) pos with
    | Some i => inr i
    | None =>
        let new_pos := length src in
        if error_on_eof
        then inl (suffixed_err src new_pos ("Expected " ++ Text.repr expect))
        else inr new_pos
    end in
  match located with
  | inl e => inl e
  | inr new_pos =>
      match first_in (drop pos src) pos (new_pos - pos) error_on with
      | Some (p, c) =>
          inl (suffixed_err src p ("Found invalid character " ++ repr_code c))
      | None => inr new_pos
      end
  end.

(** [skip_comment(src, pos)] *)
Definition skip_comment (src : list N) (pos : nat) : exn + nat :=
  match src !! pos with
  | Some 35%N =>
      skip_until src (pos + 1) (String Text.newline EmptyString)
        ILLEGAL_COMMENT_CHARS false
  | _ => inr pos
  end.

(** *** The statement rules

    [Key] is a tuple of key parts. A rule that returns gives the new
    position and the [Output] it has updated (and, for the two table rules,
    the new header). *)

Definition Key := list (list N).

(** What a rule raises. Its own [raise] statements go through
    [suffixed_err]: a position and a message. The calls it makes can raise
    too, and the rule lets that through: [int] raises [ValueError] on a
    literal with more digits than the interpreter's limit for conversion,
    and the recursion of [parse_value] through arrays and inline tables
    raises [RecursionError] when they are nested too deep. *)
Inductive rule_failure :=
  | Located (pos : nat) (msg : string)
  | IntTooLong (msg : string)
  | TooDeep (msg : string).

(** The exception of a failure of a rule called on [src]. *)
Definition rule_exn (src : list N) (f : rule_failure) : exn :=
  match f with
  | Located pos msg => suffixed_err src pos msg
  | IntTooLong msg => MsgExn ValueError msg
  | TooDeep msg => MsgExn RecursionError msg
  end.

Definition rule_result (A : Type) : Type := rule_failure + (nat * A).

(** What the statement loop relies on at a call made at [pos]: a rule that
    returns has consumed at least one character, and the message of a rule
    that raises is one line of text (the parts of a message that come from
    the document go through [repr]) and, where the interpreter supplies
    it, not empty. *)
Definition rule_ok {A : Type} (pos : nat) (r : rule_result A) : Prop :=
  match r with
  | inl (Located _ msg) => Text.has_char Text.newline msg = false
  | inl (IntTooLong msg) | inl (TooDeep msg) =>
      msg <> "" /\ Text.has_char Text.newline msg = false
  | inr (pos', _) => pos < pos'
  end.

Record Rules := {
  Output : Type;
  (** [Output(NestedDict(), Flags())] *)
  new_output : Output;
  (** [out.flags.finalize_pending()] *)
  finalize_pending : Output -> Output;
  key_value_rule : list N -> nat -> Output -> Key -> rule_result Output;
  create_list_rule : list N -> nat -> Output -> rule_result (Key * Output);
  create_dict_rule : list N -> nat -> Output -> rule_result (Key * Output)
}.

(** The rules behave, at every position inside the text, as [rule_ok]
    says. The rules of [_parser.py] do: each is called on a character it
    accepts and returns a position after it, and each message is a fixed
    text, with [repr] or a tuple of key parts inserted in some. *)
Class Lawful (R : Rules) : Prop := {
  key_value_rule_ok : forall src pos out header,
    pos < length src -> rule_ok pos (key_value_rule R src pos out header);
  create_list_rule_ok : forall src pos out,
    pos < length src -> rule_ok pos (create_list_rule R src pos out);
  create_dict_rule_ok : forall src pos out,
    pos < length src -> rule_ok pos (create_dict_rule R src pos out)
}.

Section Loads.

Context (R : Rules).

(** What step 2 of the loop leaves behind when it does not raise. *)
Definition step2_result : Type := nat * Output R * Key.

(** Step 2 of the loop body for a character that is not a line feed. *)
Definition parse_rules (src : list N) (pos : nat) (char : N)
    (out : Output R) (header : Key) : exn + step2_result :=
  if KEY_INITIAL_CHARS char then
    match key_value_rule R src pos out header with
    | inl failure => inl (rule_exn src failure)
    | inr (pos, out) => inr (skip_chars src pos TOML_WS, out, header)
    end
  else if (char =? 91)%N then
    let second_char := src !! (pos + 1) in
    let out := finalize_pending R out in
    let created :=
      match second_char with
      | Some 91%N => create_list_rule R src pos out
      | _ => create_dict_rule R src pos out
      end in
    match created with
    | inl failure => inl (rule_exn src failure)
    | inr (pos, (header, out)) => inr (skip_chars src pos TOML_WS, out, header)
    end
  else if negb (char =? 35)%N then
    inl (suffixed_err src pos "Invalid statement")
  else inr (pos, out, header).

(** The [while True] loop of [loads], one statement per iteration; [fuel]
    bounds the number of iterations and [None] means it ran out. *)
Fixpoint statements (fuel : nat) (src : list N) (pos : nat)
    (out : Output R) (header : Key) : option (exn + Output R) :=
  match fuel with
  | 0 => None
  | S fuel =>
      (* 1. Skip line leading whitespace *)
      let pos := skip_chars src pos TOML_WS in
      (* 2. Parse rules *)
      match src !! pos with
      | None => Some (inr out)
      | Some char =>
          if (char =? LF)%N then statements fuel src (pos + 1) out header
          else
            match parse_rules src pos char out header with
            | inl e => Some (inl e)
            | inr (pos, out, header) =>
                (* 3. Skip comment *)
                match skip_comment src pos with
                | inl e => Some (inl e)
                | inr pos =>
                    (* 4. Expect end of line or end of file *)
                    match src !! pos with
                    | None => Some (inr out)
                    | Some char =>
                        if negb (char =? LF)%N then
                          Some (inl (suffixed_err src pos
                            "Expected newline or end of document after a statement"))
                        else statements fuel src (pos + 1) out header
                    end
                end
            end
      end
  end.

(** [loads(s)]. With lawful rules every iteration that goes round again
    has moved past at least one character, so one more iteration than
    there are characters is enough ([loads_returns] below). The result is
    the [Output] whose [data.dict] the caller receives. *)
Definition loads (s : list N) : option (exn + Output R) :=
  let src := replace_crlf s in
  statements (S (length src)) src 0 (new_output R) [].

End Loads.

End Tomllib.

(** ** The state the script acts on, and its effects *)

Module Runtime.

Import PyExc.

(** A regular file: its bytes, its modification time, whether the process
    may open it for reading, and whether a [read] of it meets an
    input/output error of the device. *)
Record file := {
  content : list byte;
  mtime : Z;
  readable : bool;
  io_error : bool
}.

Inductive node :=
  | Directory
  | Regular (f : file).

(** An open binary file object. *)
Record file_obj := {
  fo_name : string;
  fo_data : list byte;
  fo_io_error : bool;
  fo_pos : nat;
  fo_closed : bool
}.

(** What the process does to the world outside it: opening a file for
    reading, reading and closing it, writing text to standard output,
    creating a directory, writing a file, changing the environment of the
    process, sending data over the network. *)
Inductive effect :=
  | OpenRead (path : string)
  | Read (fd : nat)
  | Close (fd : nat)
  | WriteStdout (text : string)
  | MakeDir (path : string)
  | WriteFile (path : string)
  | PutEnv (name value : string)
  | Send (address : string).


Record State := {
  fs : gmap string node;
  files : list file_obj;
  stdout : string;
  effects : list effect
}.

Definition log (ev : effect) (st : State) : State :=
  {| fs := fs st; files := files st; stdout := stdout st;
     effects := effects st ++ [ev] |}.

Definition set_files (fl : list file_obj) (st : State) : State :=
  {| fs := fs st; files := fl; stdout := stdout st; effects := effects st |}.

Definition set_stdout (s : string) (st : State) : State :=
  {| fs := fs st; files := files st; stdout := s; effects := effects st |}.


(** A statement or call either returns a value or raises. *)
Inductive result (A : Type) :=
  | Ok (a : A)
  | Raise (e : exn).
Arguments Ok {A} a.
Arguments Raise {A} e.

(** Computations: state passing with exceptions; [None] is a computation
    that does not come back (the decoder's loop out of fuel). *)
Definition M (A : Type) : Type := State -> option (result A * State).

Definition ret {A} (a : A) : M A := fun st => Some (Ok a, st).

Definition raise {A} (e : exn) : M A := fun st => Some (Raise e, st).

Definition bind {A B} (m : M A) (k : A -> M B) : M B :=
  fun st =>
    match m st with
    | None => None
    | Some (Ok a, st') => k a st'
    | Some (Raise e, st') => Some (Raise e, st')
    end.

Notation "x <- m ;; k" := (bind m (fun x => k))
  (at level 100, m at next level, right associativity).
Notation "m ;;; k" := (bind m (fun _ => k))
  (at level 100, right associativity).

(** A pure call that may raise. *)
Definition lift {A} (r : exn + A) : M A :=
  match r with
  | inl e => raise e
  | inr a => ret a
  end.

(** [try: body / except cls as e: handler]. An exception that is not an
    instance of [cls] passes through. *)
Definition try_except {A} (body : M A) (cls : exc_class)
    (handler : exn -> M A) : M A :=
  fun st =>
    match body st with
    | None => None
    | Some (Ok a, st') => Some (Ok a, st')
    | Some (Raise e, st') =>
        if isinstance e cls then handler e st' else Some (Raise e, st')
    end.

(** [with ctx as f: body] for a context manager whose [__enter__] returns
    the object itself and whose [__exit__] is [exit_] and returns a false
    value, as a file object's does: [exit_] runs whether [body] returned or
    raised, and an exception of [body] is raised again after it. *)
Definition with_ {A} (ctx : M nat) (exit_ : nat -> M unit)
    (body : nat -> M A) : M A :=
  f <- ctx ;;
  fun st =>
    match body f st with
    | None => None
    | Some (Ok a, st') => (exit_ f ;;; ret a) st'
    | Some (Raise e, st') => (exit_ f ;;; raise e) st'
    end.

Definition ENOENT : nat := 2.
Definition EACCES : nat := 13.
Definition EISDIR : nat := 21.
Definition EIO : nat := 5.

(** [open(path, "rb")]: the file object, or the [OSError] subclass of the
    errno. The new object takes the next free slot of the table. *)
Definition open_rb (path : string) : M nat :=
  fun st =>
    let st := log (OpenRead path) st in
    match fs st !! path with
    | None =>
        Some (Raise (OSErr FileNotFoundError ENOENT
                       "No such file or directory" (Some path)), st)
    | Some Directory =>
        Some (Raise (OSErr IsADirectoryError EISDIR
                       "Is a directory" (Some path)), st)
    | Some (Regular f) =>
        if readable f then
          let fo := {| fo_name := path; fo_data := content f;
                       fo_io_error := io_error f; fo_pos := 0;
                       fo_closed := false |} in
          Some (Ok (length (files st)), set_files (files st ++ [fo]) st)
        else
          Some (Raise (OSErr PermissionError EACCES
                         "Permission denied" (Some path)), st)
    end.

(** [fp.read()]: the bytes from the current position to the end. *)
Definition read (fd : nat) : M (list byte) :=
  fun st =>
    match files st !! fd with
    | Some fo =>
        if fo_closed fo then
          Some (Raise (MsgExn ValueError "read of closed file"), st)
        else
          let st := log (Read fd) st in
          if fo_io_error fo then
            Some (Raise (OSErr OSError EIO "Input/output error" None), st)
          else
            let fo' := {| fo_name := fo_name fo; fo_data := fo_data fo;
                          fo_io_error := fo_io_error fo;
                          fo_pos := length (fo_data fo);
                          fo_closed := fo_closed fo |} in
            Some (Ok (drop (fo_pos fo) (fo_data fo)),
                  set_files (<[fd := fo']> (files st)) st)
    | None => Some (Raise (MsgExn ValueError "read of closed file"), st)
    end.

(** [fp.close()], which is what a file object's [__exit__] calls; closing a
    closed file does nothing. *)
Definition close (fd : nat) : M unit :=
  fun st =>
    match files st !! fd with
    | None => Some (Ok tt, st)
    | Some fo =>
        if fo_closed fo then Some (Ok tt, st)
        else
          let fo' := {| fo_name := fo_name fo; fo_data := fo_data fo;
                        fo_io_error := fo_io_error fo; fo_pos := fo_pos fo;
                        fo_closed := true |} in
          Some (Ok tt, set_files (<[fd := fo']> (files (log (Close fd) st)))
                         (log (Close fd) st))
    end.

(** [print(s)]: the text and a line feed go to standard output. *)
Definition print (s : string) : M unit :=
  fun st =>
    let text := Text.line s in
    Some (Ok tt, set_stdout (stdout st ++ text) (log (WriteStdout text) st)).



(** [os.putenv(name, value)] *)
Definition putenv (name value : string) : M unit :=
  fun st => Some (Ok tt, log (PutEnv name value) st).

(** Sending bytes to an address, as [socket.sendto] does. *)
Definition send (address : string) (data : list byte) : M unit :=
  fun st => Some (Ok tt, log (Send address) st).

(** [tomllib.load(fp)]:
    [b = fp.read()], [s = b.decode()], [return loads(s)]. The [except
    AttributeError] around [decode] is for a file opened in text mode,
    whose [read] gives a [str]; [fp] here is a binary file. *)
Definition tomllib_load (R : Tomllib.Rules) (fp : nat)
  : M (Tomllib.Output R) :=
  b <- read fp ;;
  s <- lift (Utf8.decode b) ;;
  fun st =>
    match Tomllib.loads R s with
    | None => None
    | Some r => lift r st
    end.

End Runtime.

(** ** The script *)

Module Script.

Import PyExc Runtime.

Definition PATH : string := ".gemini/commands/refactor/surgical.toml".

Section Body.

(** The two calls of the [try] block: [open(PATH, "rb")] and
    [tomllib.load(f)], whose value the script drops. *)
Context {D : Type} (open_ : M nat) (load_ : nat -> M D).

(** Lines 4 to 9 of [validate_toml.py]. *)
Definition script : M unit :=
  try_except
    (with_ open_ close (fun f => load_ f) ;;;
     print "TOML is valid")
    Exception
    (fun e => print ("TOML error: " ++ py_str e)).

End Body.

(** The script with Python's [open] and [tomllib.load]. *)
Definition main (R : Tomllib.Rules) : M unit :=
  script (open_rb PATH) (tomllib_load R).

(** How the process ends: the module's code ran to its end and the
    interpreter exits with status 0, or an exception left the module. *)
Inductive termination :=
  | Exit (status : Z)
  | Uncaught (e : exn).

Definition initial (tree : gmap string node) : State :=
  {| fs := tree; files := []; stdout := ""; effects := [] |}.

(** One run of a computation as the whole program, in a process started on
    the file system [tree]. *)
Definition run_process (prog : M unit) (tree : gmap string node)
  : option (termination * State) :=
  match prog (initial tree) with
  | None => None
  | Some (Ok _, st) => Some (Exit 0, st)
  | Some (Raise e, st) => Some (Uncaught e, st)
  end.

Definition run (R : Tomllib.Rules) (tree : gmap string node)
  : option (termination * State) :=
  run_process (main R) tree.

End Script.

(** ** The two [import] statements and the whole program

    [import tomllib] executes the modules of the package from their source
    files. For each one the import system ([SourceLoader.get_code]) uses
    the bytecode cache when there is one as recent as the source; otherwise
    it compiles the source and, unless [sys.dont_write_bytecode] is set,
    writes the cache file, making the [__pycache__] directory when it is
    not there ([SourceFileLoader.set_data]); a cache that cannot be written
    is passed over in silence. [sys] is built into the interpreter. *)

Module Startup.

Import PyExc Runtime Script.

(** A module that the import executes from a source file, as the import
    system finds it: where the source is, whether a valid cache exists,
    whether the process may write the cache, and what compiling gives. *)
Record source_module := {
  source_dir : string;
  base_name : string;
  cache_valid : bool;
  cache_writable : bool;
  bytecode : list byte
}.

(** The interpreter the script runs on: [sys.implementation.cache_tag],
    [sys.dont_write_bytecode], the modules that [import tomllib] executes
    (those not imported before it, in the order they are loaded), and the
    time of day. *)
Record interpreter := {
  cache_tag : string;
  dont_write_bytecode : bool;
  tomllib_modules : list source_module;
  clock : Z
}.















End Startup.

(** ** The vocabulary of the properties *)

Module Outcome.

Import PyExc Runtime Script.

(** A message that is not empty and holds no line feed. *)
Definition proper_message (msg : string) : Prop :=
  msg <> "" /\ Text.has_char Text.newline msg = false.

(** A [TOMLDecodeError] with a message that is not empty and is one line. *)
Definition decode_error (e : exn) : Prop :=
  exists msg, e = MsgExn TOMLDecodeError msg /\ proper_message msg.

(** The state a [close] of [fd] leaves. *)
Definition after_close (fd : nat) (st : State) : State :=
  match close fd st with
  | Some (_, st') => st'
  | None => st
  end.

(** The [except Exception as e] clause applied to an exception [e]. *)
Definition handler (e : exn) : M unit :=
  fun st =>
    if isinstance e Exception
    then print ("TOML error: " ++ py_str e) st
    else Some (Raise e, st).

(** An exception [e] is raised inside the [try] block, in state [st_r]:
    by the call of [open], or by the call of [load] on the file that [open]
    returned. The two calls are any computations, so that [e] can be an
    exception that arrives from outside, such as the [KeyboardInterrupt] of
    a signal delivered during the call. *)
Definition raised_in_try {D : Type} (open_ : M nat) (load_ : nat -> M D)
    (st0 : State) (e : exn) (st_r : State) : Prop :=
  open_ st0 = Some (Raise e, st_r) \/
  exists f st1, open_ st0 = Some (Ok f, st1) /\
                load_ f st1 = Some (Raise e, st_r).

(** [open(PATH, "rb")] raises [e] in a process started on [tree]. *)
Definition open_fails (tree : gmap string node) (e : exn) : Prop :=
  exists st1, open_rb PATH (initial tree) = Some (Raise e, st1).

(** [open] returns and [tomllib.load], which reads and decodes, raises [e]. *)
Definition load_fails (R : Tomllib.Rules) (tree : gmap string node)
    (e : exn) : Prop :=
  exists f st1 st2,
    open_rb PATH (initial tree) = Some (Ok f, st1) /\
    tomllib_load R f st1 = Some (Raise e, st2).

(** The bytes decode as UTF-8 and [loads] returns a document. *)
Definition valid_toml (R : Tomllib.Rules) (b : list byte) : Prop :=
  exists s out, Utf8.decode b = inr s /\ Tomllib.loads R s = Some (inr out).

(** What a run can see of the file at the script's path: whether it is
    there, and for a regular file its bytes, whether it may be opened and
    whether reading it fails. The modification time is not seen. *)
Inductive seen :=
  | Missing
  | IsDirectory
  | IsFile (bytes : list byte) (may_read : bool) (read_fails : bool).

Definition observed (tree : gmap string node) : seen :=
  match tree !! PATH with
  | None => Missing
  | Some Directory => IsDirectory
  | Some (Regular f) => IsFile (content f) (readable f) (io_error f)
  end.

(** *** A run in one equation

    The functions below say, without the monad, what [open] meets, what
    [tomllib.load] does with the opened file, and the state a run ends in;
    [run_verdict] proves that the script computes exactly this. *)

(** What [open(PATH, "rb")] meets. *)
Definition open_result (tree : gmap string node) : exn + file :=
  match tree !! PATH with
  | None =>
      inl (OSErr FileNotFoundError ENOENT "No such file or directory"
             (Some PATH))
  | Some Directory =>
      inl (OSErr IsADirectoryError EISDIR "Is a directory" (Some PATH))
  | Some (Regular f) =>
      if readable f then inr f
      else inl (OSErr PermissionError EACCES "Permission denied" (Some PATH))
  end.

(** What [tomllib.load] does with the opened file. *)
Definition load_result (R : Tomllib.Rules) (f : file)
  : option (exn + Tomllib.Output R) :=
  if io_error f then
    Some (inl (OSErr OSError EIO "Input/output error" None))
  else
    match Utf8.decode (content f) with
    | inl e => Some (inl e)
    | inr s => Tomllib.loads R s
    end.

(** The state after a successful [open]: one file object, at slot 0. *)
Definition opened_state (tree : gmap string node) (f : file) : State :=
  {| fs := tree;
     files := [ {| fo_name := PATH; fo_data := content f;
                   fo_io_error := io_error f; fo_pos := 0;
                   fo_closed := false |} ];
     stdout := "";
     effects := [OpenRead PATH] |}.

(** The state in which [tomllib.load] returns or raises. *)
Definition loaded_state (tree : gmap string node) (f : file) : State :=
  {| fs := tree;
     files := [ {| fo_name := PATH; fo_data := content f;
                   fo_io_error := io_error f;
                   fo_pos := if io_error f then 0 else length (content f);
                   fo_closed := false |} ];
     stdout := "";
     effects := [OpenRead PATH; Read 0] |}.

(** The file object of the opened file once it is closed. *)
Definition closed_file (f : file) : file_obj :=
  {| fo_name := PATH; fo_data := content f; fo_io_error := io_error f;
     fo_pos := if io_error f then 0 else length (content f);
     fo_closed := true |}.

(** The state at the end of a run that printed [line]. *)
Definition final_state (tree : gmap string node) (opened : option file)
    (line : string) : State :=
  let text := Text.line line in
  {| fs := tree;
     files := match opened with
              | Some f => [closed_file f]
              | None => []
              end;
     stdout := text;
     effects := OpenRead PATH ::
                match opened with
                | Some _ => [Read 0; Close 0]
                | None => []
                end ++ [WriteStdout text] |}.

(** What a run prints and whether it had a file open. *)
Definition verdict (R : Tomllib.Rules) (tree : gmap string node)
  : option (option file * string) :=
  match open_result tree with
  | inl e => Some (None, "TOML error: " ++ py_str e)
  | inr f =>
      match load_result R f with
      | None => None
      | Some (inl e) => Some (Some f, "TOML error: " ++ py_str e)
      | Some (inr _) => Some (Some f, "TOML is valid")
      end
  end.

End Outcome.

(** ** An implementation of the statement rules

    The rules for documents whose statements are [key = true] and
    [key = false] with a bare key, written after [parse_key_part],
    [parse_key_value_pair], [parse_value] and [key_value_rule] restricted to
    such statements; table headers are outside this fragment. It shows that
    the interface has a lawful implementation that does return, and it is
    the decoder on which the examples run. *)

Module BoolRules.

Import Tomllib.

Definition Out : Type := list (list N * bool).

Definition has_key (key : list N) (out : Out) : bool :=
  existsb (fun kv => bool_decide (fst kv = key)) out.

Definition parse_bool (src : list N) (pos : nat) : option (nat * bool) :=
  if starts_with (drop pos src) (codes "true") then Some (pos + 4, true)
  else if starts_with (drop pos src) (codes "false") then Some (pos + 5, false)
  else None.

Definition key_value (src : list N) (pos : nat) (out : Out) (header : Key)
  : rule_result Out :=
  match src !! pos with
  | Some c =>
      if BARE_KEY_CHARS c then
        let start_pos := pos in
        let pos := skip_chars src pos BARE_KEY_CHARS in
        let key := take (pos - start_pos) (drop start_pos src) in
        let pos := skip_chars src pos TOML_WS in
        match src !! pos with
        | Some c' =>
            if (c' =? 61)%N then
              let pos := skip_chars src (pos + 1) TOML_WS in
              match parse_bool src pos with
              | Some (pos, value) =>
                  if has_key key out
                  then inl (Located pos "Cannot overwrite a value")
                  else inr (pos, (out ++ [(key, value)])%list)
              | None => inl (Located pos "Invalid value")
              end
            else inl (Located pos "Expected '=' after a key in a key/value pair")
        | None => inl (Located pos "Expected '=' after a key in a key/value pair")
        end
      else inl (Located pos "Invalid initial character for a key part")
  | None => inl (Located pos "Invalid initial character for a key part")
  end.

Definition no_tables (src : list N) (pos : nat) (out : Out)
  : rule_result (Key * Out) :=
  inl (Located pos "Invalid statement").

Definition rules : Rules :=
  {| Output := Out;
     new_output := [];
     finalize_pending := fun out => out;
     key_value_rule := key_value;
     create_list_rule := no_tables;
     create_dict_rule := no_tables |}.

End BoolRules.

(** ** File systems and calls used in the examples *)

Module Examples.

Import PyExc Runtime Script.

(** A file system with one readable regular file at the script's path. *)
Definition the_file (b : list byte) : file :=
  {| content := b; mtime := 1700000000; readable := true;
     io_error := false |}.

Definition tree_with (b : list byte) : gmap string node :=
  {[ PATH := Regular (the_file b) ]}.

(** A [tomllib.load] interrupted after it has read the file. *)
Definition interrupted_load (fp : nat) : M unit :=
  _ <- read fp ;; raise (BareExn KeyboardInterrupt).

(** The modules of the package [tomllib], in the order the import loads
    them, in an installation where the process may write; [valid] says
    whether their bytecode caches are there and up to date. *)
Definition tomllib_package (valid : bool) : list Startup.source_module :=
  map (fun name =>
         {| Startup.source_dir := "/usr/local/lib/python3.11/tomllib";
            Startup.base_name := name;
            Startup.cache_valid := valid;
            Startup.cache_writable := true;
            Startup.bytecode := [] |})
      ["__init__"; "_parser"; "_re"; "_types"].

(** An interpreter on an installation with its bytecode caches. *)
Definition installed : Startup.interpreter :=
  {| Startup.cache_tag := "cpython-311";
     Startup.dont_write_bytecode := false;
     Startup.tomllib_modules := tomllib_package true;
     Startup.clock := 1700000100 |}.


End Examples.

(** ** Kinds of documents *)

Module Documents.

Import Tomllib.

(** The byte is an ASCII character. *)
Definition is_ascii (b : byte) : bool := (Utf8.bv b <? 128)%N.

(** The byte cannot begin a UTF-8 sequence: a continuation byte, 0xC0 or
    0xC1, or a byte from 0xF5 on. *)
Definition invalid_lead (b : byte) : bool :=
  ((128 <=? Utf8.bv b) && (Utf8.bv b <? 194) || (245 <=? Utf8.bv b))%N.

(** The character can begin a statement or a comment: a key character, a
    quote, an opening bracket or a hash. *)
Definition statement_start (c : N) : bool :=
  KEY_INITIAL_CHARS c || (c =? 91)%N || (c =? 35)%N.

(** The text holds nothing but blank lines and comments: on each line,
    spaces and tabs, then possibly a hash followed by characters that a
    comment may hold. [in_comment] says whether the hash of the current
    line has been passed. *)
Fixpoint only_comments (in_comment : bool) (rest : list N) : bool :=
  match rest with
  | [] => true
  | c :: r =>
      if (c =? LF)%N then only_comments false r
      else if in_comment then
        negb (ILLEGAL_COMMENT_CHARS c) && only_comments true r
      else if TOML_WS c then only_comments false r
      else if (c =? 35)%N then only_comments true r
      else false
  end.

End Documents.

(** * Properties *)

(** ** Text: what a rendered number or [repr] can hold *)

Module TextFacts.

Import Text.

Lemma has_char_app c (a b : string) :
  has_char c (a ++ b) = has_char c a || has_char c b.
Proof.
  induction a as [|x a IH]; simpl; [reflexivity|].
  rewrite IH. apply orb_assoc.
Qed.

Lemma string_of_uint_digits (d : Decimal.uint) :
  has_char newline (NilEmpty.string_of_uint d) = false.
Proof. induction d; simpl; auto. Qed.

Lemma dec_one_line (n : nat) : has_char newline (dec n) = false.
Proof.
  unfold dec, NilZero.string_of_uint.
  destruct (Nat.to_uint n) eqn:E; try reflexivity;
    rewrite <- E; apply string_of_uint_digits.
Qed.

Lemma dec_nonempty (n : nat) : dec n <> "".
Proof.
  unfold dec, NilZero.string_of_uint.
  destruct (Nat.to_uint n); simpl; discriminate.
Qed.

Lemma hex_digit_not_newline (n : nat) : Ascii.eqb (hex_digit n) newline = false.
Proof. do 16 (destruct n as [|n]; [reflexivity|]). reflexivity. Qed.

Lemma hex2_one_line (n : nat) : has_char newline (hex2 n) = false.
Proof.
  unfold hex2. simpl. now rewrite !hex_digit_not_newline.
Qed.

Lemma repr_char_one_line (q c : ascii) :
  Ascii.eqb q newline = false -> has_char newline (repr_char q c) = false.
Proof.
  intros Hq. unfold repr_char.
  destruct (Ascii.eqb c "\"%char); [reflexivity|].
  destruct (Ascii.eqb c q) eqn:Ecq.
  - apply Ascii.eqb_eq in Ecq. subst c. simpl. now rewrite Hq.
  - destruct (nat_of_ascii c =? 9); [reflexivity|].
    destruct (nat_of_ascii c =? 10) eqn:E10; [reflexivity|].
    destruct (nat_of_ascii c =? 13); [reflexivity|].
    destruct ((nat_of_ascii c <? 32) || (126 <? nat_of_ascii c)).
    + rewrite has_char_app, hex2_one_line. reflexivity.
    + simpl. rewrite orb_false_r.
      destruct (Ascii.eqb c newline) eqn:Ec; [|reflexivity].
      apply Ascii.eqb_eq in Ec. subst c. discriminate E10.
Qed.

Lemma repr_body_one_line (q : ascii) (s : string) :
  Ascii.eqb q newline = false -> has_char newline (repr_body q s) = false.
Proof.
  intros Hq. induction s as [|c s IH]; simpl; [reflexivity|].
  now rewrite has_char_app, repr_char_one_line, IH.
Qed.

Lemma repr_one_line (s : string) : has_char newline (repr s) = false.
Proof.
  unfold repr.
  destruct (has_char apostrophe s && negb (has_char dquote s)); simpl;
    rewrite has_char_app, repr_body_one_line by reflexivity; reflexivity.
Qed.

End TextFacts.

(** ** The decoder: it returns, and what it raises *)

Module TomllibFacts.

Import PyExc Tomllib TextFacts Outcome.

(** Case analysis on the binary digits of a character code [q], far enough
    to decide a comparison with an ASCII character; [tac] closes the cases
    in which the codes differ. *)
Ltac split_code q tac :=
  do 8 (try (destruct q as [q|q|]; try tac)).

Lemma decode_error_instance e :
  decode_error e -> isinstance e Exception = true.
Proof. intros (msg & -> & _). reflexivity. Qed.

Lemma decode_error_message e : decode_error e -> proper_message (py_str e).
Proof. intros (msg & -> & Hproper). exact Hproper. Qed.

Lemma coord_repr_one_line src pos :
  Text.has_char Text.newline (coord_repr src pos) = false.
Proof.
  unfold coord_repr. destruct (length src <=? pos); [reflexivity|].
  cbv zeta. rewrite !has_char_app, !dec_one_line. reflexivity.
Qed.

Lemma suffixed_err_decode_error src pos msg :
  Text.has_char Text.newline msg = false ->
  decode_error (suffixed_err src pos msg).
Proof.
  intros Hmsg. exists (msg ++ " (at " ++ coord_repr src pos ++ ")").
  split; [reflexivity|]. split.
  - destruct msg; simpl; discriminate.
  - rewrite !has_char_app, Hmsg, coord_repr_one_line. reflexivity.
Qed.

Lemma skip_chars_in_ge rest pos chars : pos <= skip_chars_in rest pos chars.
Proof.
  revert pos. induction rest as [|c r IH]; intros pos; simpl; [lia|].
  destruct (chars c); [|lia]. specialize (IH (S pos)). lia.
Qed.

Lemma skip_chars_ge src pos chars : pos <= skip_chars src pos chars.
Proof. apply skip_chars_in_ge. Qed.

Lemma index_in_ge rest pos expect i :
  index_in rest pos expect = Some i -> pos <= i.
Proof.
  revert pos. induction rest as [|c r IH]; intros pos; cbn [index_in].
  - destruct (starts_with [] expect); intros H; inversion H; lia.
  - destruct (starts_with (c :: r) expect).
    + intros H; inversion H; lia.
    + intros H. apply IH in H. lia.
Qed.

Lemma skip_until_ge src pos expect error_on eof p :
  pos <= length src ->
  skip_until src pos expect error_on eof = inr p -> pos <= p.
Proof.
  intros Hpos. unfold skip_until.
  destruct (index src (codes expect) pos) as [i|] eqn:Ei.
  - unfold index in Ei. destruct (length src <? pos); [discriminate|].
    apply index_in_ge in Ei.
    destruct (first_in _ _ _ _) as [[? ?]|]; intros H; inversion H; lia.
  - destruct eof; [discriminate|].
    destruct (first_in _ _ _ _) as [[? ?]|]; intros H; inversion H; lia.
Qed.

Lemma skip_until_error src pos expect error_on eof e :
  skip_until src pos expect error_on eof = inl e -> decode_error e.
Proof.
  unfold skip_until.
  assert (Hfound : forall new_pos,
    match first_in (drop pos src) pos (new_pos - pos) error_on with
    | Some (p, c) =>
        inl (suffixed_err src p ("Found invalid character " ++ repr_code c))
    | None => inr new_pos
    end = inl e -> decode_error e).
  { intros new_pos. destruct (first_in _ _ _ _) as [[p c]|]; [|discriminate].
    intros H; inversion H. apply suffixed_err_decode_error.
    rewrite has_char_app. unfold repr_code. now rewrite repr_one_line. }
  destruct (index src (codes expect) pos) as [i|]; [apply Hfound|].
  destruct eof; [|apply Hfound].
  intros H; inversion H. apply suffixed_err_decode_error.
  rewrite has_char_app. now rewrite repr_one_line.
Qed.

Lemma skip_comment_ge src pos p : skip_comment src pos = inr p -> pos <= p.
Proof.
  unfold skip_comment. destruct (src !! pos) as [c|] eqn:E.
  - apply lookup_lt_Some in E.
    destruct (N.eq_dec c 35%N) as [->|Hne].
    + intros H. apply skip_until_ge in H; lia.
    + assert (match c with 35%N => skip_until src (pos + 1)
                (String Text.newline EmptyString) ILLEGAL_COMMENT_CHARS false
              | _ => inr pos end = (inr pos : exn + nat)) as ->.
      { destruct c as [|q]; [reflexivity|].
        split_code q ltac:(idtac; reflexivity). congruence. }
      intros H; inversion H; lia.
  - intros H; inversion H; lia.
Qed.

Lemma skip_comment_error src pos e :
  skip_comment src pos = inl e -> decode_error e.
Proof.
  unfold skip_comment. destruct (src !! pos) as [c|]; [|discriminate].
  destruct c as [|q]; [discriminate|].
  split_code q ltac:(idtac; discriminate).
  apply skip_until_error.
Qed.

(** *** Whatever the rules are: every error is an instance of
    [Exception] *)

Section AnyRules.

Context (R : Rules).

Lemma rule_exn_instance src failure :
  isinstance (rule_exn src failure) Exception = true.
Proof. destruct failure; reflexivity. Qed.

Lemma parse_rules_raises src pos char out header e :
  parse_rules R src pos char out header = inl e ->
  isinstance e Exception = true.
Proof.
  unfold parse_rules. destruct (KEY_INITIAL_CHARS char).
  - destruct (key_value_rule R src pos out header) as [failure|[p1 o1]];
      [|discriminate].
    intros H; inversion H. apply rule_exn_instance.
  - destruct (char =? 91)%N.
    + cbv zeta.
      destruct (match src !! (pos + 1) with
                | Some 91%N => _ | _ => _ end) as [failure|[p1 [h1 o1]]];
        [|discriminate].
      intros H; inversion H. apply rule_exn_instance.
    + destruct (negb (char =? 35)%N); [|discriminate].
      intros H; inversion H. reflexivity.
Qed.

Lemma statements_raises fuel : forall src pos out header e,
  statements R fuel src pos out header = Some (inl e) ->
  isinstance e Exception = true.
Proof.
  induction fuel as [|fuel IH]; intros src pos out header e; [discriminate|].
  simpl.
  destruct (src !! skip_chars src pos TOML_WS) as [char|]; [|discriminate].
  destruct (char =? LF)%N; [apply IH|].
  destruct (parse_rules R src _ char out header) as [e'|[[p o] h]] eqn:Erules.
  - intros H; inversion H; subst. eapply parse_rules_raises; exact Erules.
  - destruct (skip_comment src p) as [e'|p'] eqn:Ecomment.
    + intros H; inversion H; subst.
      apply decode_error_instance.
      eapply skip_comment_error; exact Ecomment.
    + destruct (src !! p') as [char'|]; [|discriminate].
      destruct (negb (char' =? LF)%N); [|apply IH].
      intros H; inversion H. reflexivity.
Qed.

(** What [loads] raises is an instance of [Exception]. *)
Lemma loads_raises s e :
  loads R s = Some (inl e) -> isinstance e Exception = true.
Proof. unfold loads. apply statements_raises. Qed.

(** The document without characters has no statements. *)
Lemma loads_empty : loads R [] = Some (inr (new_output R)).
Proof. reflexivity. Qed.

End AnyRules.

(** *** With lawful rules: the loop ends, and messages are one line *)

Section LawfulRules.

Context (R : Rules) {HR : Lawful R}.

(** The rule that the second character of a table header selects. *)
Lemma table_rule_ok src pos out :
  pos < length src ->
  rule_ok pos
    match src !! (pos + 1) with
    | Some 91%N => create_list_rule R src pos out
    | _ => create_dict_rule R src pos out
    end.
Proof.
  intros Hc.
  destruct (src !! (pos + 1)) as [c|]; [|apply create_dict_rule_ok; exact Hc].
  destruct c as [|q]; [apply create_dict_rule_ok; exact Hc|].
  split_code q ltac:(idtac; apply create_dict_rule_ok; exact Hc).
  apply create_list_rule_ok; exact Hc.
Qed.

Lemma parse_rules_ge src pos char out header p o h :
  src !! pos = Some char ->
  parse_rules R src pos char out header = inr (p, o, h) -> pos <= p.
Proof.
  intros Hc. apply lookup_lt_Some in Hc. unfold parse_rules.
  destruct (KEY_INITIAL_CHARS char).
  - pose proof (key_value_rule_ok src pos out header Hc) as Hok.
    destruct (key_value_rule R src pos out header) as [failure|[p1 o1]];
      [discriminate|].
    simpl in Hok. intros H; inversion H; subst.
    pose proof (skip_chars_ge src p1 TOML_WS). lia.
  - destruct (char =? 91)%N.
    + cbv zeta.
      pose proof (table_rule_ok src pos (finalize_pending R out) Hc) as Hok.
      destruct (match src !! (pos + 1) with
                | Some 91%N => _ | _ => _ end) as [failure|[p1 [h1 o1]]];
        [discriminate|].
      simpl in Hok. intros H; inversion H; subst.
      pose proof (skip_chars_ge src p1 TOML_WS). lia.
    + destruct (negb (char =? 35)%N); [discriminate|].
      intros H; inversion H; lia.
Qed.

Lemma rule_exn_message {A : Type} src pos failure :
  rule_ok pos (inl failure : rule_result A) ->
  proper_message (py_str (rule_exn src failure)).
Proof.
  destruct failure as [p msg|msg|msg]; intros Hok.
  - apply decode_error_message.
    apply (suffixed_err_decode_error src p msg). exact Hok.
  - exact Hok.
  - exact Hok.
Qed.

Lemma parse_rules_error src pos char out header e :
  src !! pos = Some char ->
  parse_rules R src pos char out header = inl e ->
  proper_message (py_str e).
Proof.
  intros Hc. apply lookup_lt_Some in Hc. unfold parse_rules.
  destruct (KEY_INITIAL_CHARS char).
  - pose proof (key_value_rule_ok src pos out header Hc) as Hok.
    destruct (key_value_rule R src pos out header) as [failure|[p1 o1]];
      [|discriminate].
    intros H; inversion H. exact (rule_exn_message src pos failure Hok).
  - destruct (char =? 91)%N.
    + cbv zeta.
      pose proof (table_rule_ok src pos (finalize_pending R out) Hc) as Hok.
      destruct (match src !! (pos + 1) with
                | Some 91%N => _ | _ => _ end) as [failure|[p1 [h1 o1]]];
        [|discriminate].
      intros H; inversion H. exact (rule_exn_message src pos failure Hok).
    + destruct (negb (char =? 35)%N); [|discriminate].
      intros H; inversion H. apply decode_error_message.
      now apply suffixed_err_decode_error.
Qed.

(** With more fuel than there are characters from [pos] on, the loop
    comes to its end. *)
Lemma statements_returns fuel : forall src pos out header,
  0 < fuel -> length src < pos + fuel ->
  exists r, statements R fuel src pos out header = Some r.
Proof.
  induction fuel as [|fuel IH]; intros src pos out header Hpos Hfuel; [lia|].
  simpl.
  pose proof (skip_chars_ge src pos TOML_WS) as Hws.
  destruct (src !! skip_chars src pos TOML_WS) as [char|] eqn:Echar;
    [|eauto].
  pose proof (lookup_lt_Some _ _ _ Echar) as Hlt.
  destruct (char =? LF)%N; [apply IH; lia|].
  destruct (parse_rules R src _ char out header) as [e|[[p o] h]] eqn:Erules;
    [eauto|].
  apply parse_rules_ge in Erules; [|exact Echar].
  destruct (skip_comment src p) as [e|p'] eqn:Ecomment; [eauto|].
  apply skip_comment_ge in Ecomment.
  destruct (src !! p') as [char'|] eqn:Echar'; [|eauto].
  destruct (negb (char' =? LF)%N); [eauto|].
  apply IH; lia.
Qed.

Lemma statements_error fuel : forall src pos out header e,
  statements R fuel src pos out header = Some (inl e) ->
  proper_message (py_str e).
Proof.
  induction fuel as [|fuel IH]; intros src pos out header e; [discriminate|].
  simpl.
  destruct (src !! skip_chars src pos TOML_WS) as [char|] eqn:Echar;
    [|discriminate].
  destruct (char =? LF)%N; [apply IH|].
  destruct (parse_rules R src _ char out header) as [e'|[[p o] h]] eqn:Erules.
  - intros H; inversion H; subst.
    eapply parse_rules_error; [exact Echar|exact Erules].
  - destruct (skip_comment src p) as [e'|p'] eqn:Ecomment.
    + intros H; inversion H; subst. apply decode_error_message.
      eapply skip_comment_error; exact Ecomment.
    + destruct (src !! p') as [char'|]; [|discriminate].
      destruct (negb (char' =? LF)%N); [|apply IH].
      intros H; inversion H. apply decode_error_message.
      now apply suffixed_err_decode_error.
Qed.

(** [loads] returns or raises; it does not run forever. *)
Lemma loads_returns s : exists r, loads R s = Some r.
Proof. unfold loads. apply statements_returns; lia. Qed.

(** What [loads] raises has a message that is not empty and is one line. *)
Lemma loads_error s e :
  loads R s = Some (inl e) -> proper_message (py_str e).
Proof. unfold loads. apply statements_error. Qed.

End LawfulRules.

End TomllibFacts.

(** ** The example rules are lawful *)

Module BoolRulesFacts.

Import Tomllib TomllibFacts BoolRules.

Lemma key_value_ok src pos out header :
  rule_ok pos (key_value src pos out header).
Proof.
  unfold key_value.
  destruct (src !! pos) as [c|]; [|reflexivity].
  destruct (BARE_KEY_CHARS c); [|reflexivity].
  cbv zeta.
  pose proof (skip_chars_ge src pos BARE_KEY_CHARS) as H1.
  pose proof (skip_chars_ge src (skip_chars src pos BARE_KEY_CHARS) TOML_WS)
    as H2.
  destruct (src !! skip_chars src _ TOML_WS) as [c'|]; [|reflexivity].
  destruct (c' =? 61)%N; [|reflexivity].
  pose proof (skip_chars_ge src
    (skip_chars src (skip_chars src pos BARE_KEY_CHARS) TOML_WS + 1) TOML_WS)
    as H3.
  unfold parse_bool.
  destruct (starts_with _ (codes "true")).
  - destruct (has_key _ out); simpl; [reflexivity|lia].
  - destruct (starts_with _ (codes "false")); [|reflexivity].
    destruct (has_key _ out); simpl; [reflexivity|lia].
Qed.

#[export] Instance rules_lawful : Lawful rules.
Proof.
  split; intros; [apply key_value_ok | reflexivity | reflexivity].
Qed.

End BoolRulesFacts.

(** ** The script, statement by statement *)

Module ScriptFacts.

Import PyExc Runtime Script Outcome TomllibFacts.

Lemma close_returns fd st : close fd st = Some (Ok tt, after_close fd st).
Proof.
  unfold after_close, close.
  destruct (files st !! fd) as [fo|]; [|reflexivity].
  destruct (fo_closed fo); reflexivity.
Qed.

Lemma after_close_stdout fd st : stdout (after_close fd st) = stdout st.
Proof.
  unfold after_close, close.
  destruct (files st !! fd) as [fo|]; [|reflexivity].
  destruct (fo_closed fo); reflexivity.
Qed.

Section Body.

Context {D : Type} (open_ : M nat) (load_ : nat -> M D).

Lemma script_open_raises st e st1 :
  open_ st = Some (Raise e, st1) ->
  script open_ load_ st = handler e st1.
Proof.
  intros Hopen. unfold script, try_except, with_, bind, handler.
  rewrite Hopen. reflexivity.
Qed.

Lemma script_load_raises st f st1 e st2 :
  open_ st = Some (Ok f, st1) ->
  load_ f st1 = Some (Raise e, st2) ->
  script open_ load_ st = handler e (after_close f st2).
Proof.
  intros Hopen Hload. unfold script, try_except, with_, bind, handler.
  rewrite Hopen, Hload, close_returns. reflexivity.
Qed.

Lemma script_load_returns st f st1 d st2 :
  open_ st = Some (Ok f, st1) ->
  load_ f st1 = Some (Ok d, st2) ->
  script open_ load_ st = print "TOML is valid" (after_close f st2).
Proof.
  intros Hopen Hload. unfold script, try_except, with_, bind.
  rewrite Hopen, Hload, close_returns. reflexivity.
Qed.

Lemma script_load_diverges st f st1 :
  open_ st = Some (Ok f, st1) ->
  load_ f st1 = None ->
  script open_ load_ st = None.
Proof.
  intros Hopen Hload. unfold script, try_except, with_, bind.
  rewrite Hopen, Hload. reflexivity.
Qed.

End Body.

(** *** [open] and [tomllib.load] on a given file system *)

Lemma open_rb_raises tree e :
  open_result tree = inl e ->
  open_rb PATH (initial tree)
  = Some (Raise e, log (OpenRead PATH) (initial tree))
  /\ isinstance e Exception = true.
Proof.
  unfold open_result, open_rb. cbn [fs log initial].
  destruct (tree !! PATH) as [[|f]|].
  - intros H; inversion H. split; reflexivity.
  - destruct (readable f); [discriminate|].
    intros H; inversion H. split; reflexivity.
  - intros H; inversion H. split; reflexivity.
Qed.

Lemma open_rb_returns tree f :
  open_result tree = inr f ->
  open_rb PATH (initial tree) = Some (Ok 0, opened_state tree f).
Proof.
  unfold open_result, open_rb. cbn [fs log initial].
  destruct (tree !! PATH) as [[|f']|]; try discriminate.
  destruct (readable f'); [|discriminate].
  intros H; inversion H; subst. reflexivity.
Qed.

Lemma tomllib_load_result R tree f :
  tomllib_load R 0 (opened_state tree f)
  = match load_result R f with
    | None => None
    | Some (inl e) => Some (Raise e, loaded_state tree f)
    | Some (inr out) => Some (Ok out, loaded_state tree f)
    end.
Proof.
  unfold tomllib_load, load_result, bind, read, lift, raise, ret,
    loaded_state, opened_state, log, set_files.
  cbn [files fs stdout effects lookup list_lookup fo_closed fo_io_error
       fo_name fo_data fo_pos].
  destruct (io_error f); [reflexivity|].
  cbn [app list_insert insert]. change (drop 0 (content f)) with (content f).
  destruct (Utf8.decode (content f)) as [e|s]; [reflexivity|].
  destruct (Tomllib.loads R s) as [[e|out]|]; reflexivity.
Qed.

Lemma decode_raises b e :
  Utf8.decode b = inl e -> class_of e = UnicodeDecodeError.
Proof.
  unfold Utf8.decode. destruct (Utf8.decode_from b 0); intros H; inversion H.
  reflexivity.
Qed.

(** Whatever [tomllib.load] raises is an instance of [Exception]. *)
Lemma load_result_raises R f e :
  load_result R f = Some (inl e) -> isinstance e Exception = true.
Proof.
  unfold load_result. destruct (io_error f).
  - intros H; inversion H. reflexivity.
  - destruct (Utf8.decode (content f)) as [e'|s] eqn:Edec.
    + intros H; inversion H; subst. apply decode_raises in Edec.
      unfold isinstance. rewrite Edec. reflexivity.
    + intros H. now apply loads_raises in H.
Qed.

Lemma load_result_returns R {HR : Tomllib.Lawful R} f :
  exists r, load_result R f = Some r.
Proof.
  unfold load_result. destruct (io_error f); [eauto|].
  destruct (Utf8.decode (content f)); [eauto|].
  apply (@loads_returns R HR).
Qed.

Lemma after_close_loaded tree f :
  after_close 0 (loaded_state tree f)
  = {| fs := tree; files := [closed_file f]; stdout := "";
       effects := [OpenRead PATH; Read 0; Close 0] |}.
Proof. reflexivity. Qed.

(** Every run of the script, in one equation. *)
Lemma run_verdict R tree :
  run R tree
  = match verdict R tree with
    | Some (opened, line) => Some (Exit 0, final_state tree opened line)
    | None => None
    end.
Proof.
  unfold run, run_process, main, verdict.
  destruct (open_result tree) as [e|f] eqn:Eopen.
  - apply open_rb_raises in Eopen. destruct Eopen as [Hopen Hinst].
    rewrite (script_open_raises _ _ _ _ _ Hopen).
    unfold handler. rewrite Hinst. reflexivity.
  - apply open_rb_returns in Eopen.
    pose proof (tomllib_load_result R tree f) as Hload.
    destruct (load_result R f) as [[e|out]|] eqn:Eload.
    + rewrite (script_load_raises _ _ _ _ _ _ _ Eopen Hload).
      apply load_result_raises in Eload.
      unfold handler. rewrite Eload, after_close_loaded. reflexivity.
    + rewrite (script_load_returns _ _ _ _ _ _ _ Eopen Hload).
      rewrite after_close_loaded. reflexivity.
    + rewrite (script_load_diverges _ _ _ _ _ Eopen Hload). reflexivity.
Qed.

(** With lawful rules a run always ends, and ends with status 0. *)
Lemma verdict_returns R {HR : Tomllib.Lawful R} tree :
  exists opened l, verdict R tree = Some (opened, l).
Proof.
  unfold verdict. destruct (open_result tree) as [e|f]; [eauto|].
  destruct (load_result_returns R f) as [[e|out] ->]; eauto.
Qed.

(** *** The failures of the try block, through [open_result] and
    [load_result] *)

Lemma open_fails_result tree e : open_fails tree e -> open_result tree = inl e.
Proof.
  intros [st1 H]. destruct (open_result tree) as [e'|f] eqn:E.
  - apply open_rb_raises in E. destruct E as [E _]. congruence.
  - apply open_rb_returns in E. congruence.
Qed.

Lemma open_result_fails tree e : open_result tree = inl e -> open_fails tree e.
Proof.
  intros H. apply open_rb_raises in H. destruct H as [H _].
  eexists; eauto.
Qed.

Lemma load_fails_result R tree e :
  load_fails R tree e ->
  exists f, open_result tree = inr f /\ load_result R f = Some (inl e).
Proof.
  intros (fd & st1 & st2 & Hopen & Hload).
  destruct (open_result tree) as [e'|f] eqn:E.
  - apply open_rb_raises in E. destruct E as [E _]. congruence.
  - exists f. split; [reflexivity|].
    apply open_rb_returns in E. rewrite E in Hopen. inversion Hopen; subst.
    rewrite tomllib_load_result in Hload.
    destruct (load_result R f) as [[e'|out]|]; congruence.
Qed.

Lemma load_result_fails R tree f e :
  open_result tree = inr f -> load_result R f = Some (inl e) ->
  load_fails R tree e.
Proof.
  intros Hopen Hload. apply open_rb_returns in Hopen.
  exists 0, (opened_state tree f), (loaded_state tree f).
  split; [exact Hopen|]. rewrite tomllib_load_result, Hload. reflexivity.
Qed.

Lemma readable_file_opens tree f :
  tree !! PATH = Some (Regular f) -> readable f = true ->
  open_result tree = inr f.
Proof. intros Hf Hr. unfold open_result. now rewrite Hf, Hr. Qed.

(** *** What the file system shows is all a run depends on *)

Lemma load_result_observed R f f' :
  content f = content f' -> io_error f = io_error f' ->
  load_result R f = load_result R f'.
Proof. intros Hc Hio. unfold load_result. now rewrite Hc, Hio. Qed.

Lemma verdict_observed R tree tree' :
  observed tree = observed tree' ->
  option_map snd (verdict R tree) = option_map snd (verdict R tree').
Proof.
  unfold observed, verdict, open_result.
  destruct (tree !! PATH) as [[|f]|], (tree' !! PATH) as [[|f']|];
    try discriminate; try reflexivity.
  intros H. injection H as Hc Hr Hio. rewrite <- Hr.
  destruct (readable f); [|reflexivity].
  rewrite (load_result_observed R f f' Hc Hio).
  destruct (load_result R f') as [[e|out]|]; reflexivity.
Qed.

End ScriptFacts.

(** ** What the error messages look like *)

Module MessageFacts.

Import PyExc Runtime Script Outcome TextFacts TomllibFacts ScriptFacts.

Lemma unicode_decode_message b f :
  proper_message
    (py_str (UnicodeDecodeErr "utf-8" b (Utf8.f_start f) (Utf8.f_stop f)
               (Utf8.reason_text (Utf8.f_reason f)))).
Proof.
  assert (Hreason :
    Text.has_char Text.newline (Utf8.reason_text (Utf8.f_reason f)) = false)
    by (destruct (Utf8.f_reason f); reflexivity).
  unfold proper_message, py_str.
  destruct (b !! Utf8.f_start f);
    [destruct (Utf8.f_stop f =? Utf8.f_start f + 1)|];
    (split; [simpl; discriminate|]);
    rewrite !has_char_app, ?dec_one_line, ?hex2_one_line, Hreason;
    reflexivity.
Qed.

Lemma decode_message b e :
  Utf8.decode b = inl e -> proper_message (py_str e).
Proof.
  unfold Utf8.decode. destruct (Utf8.decode_from b 0) as [fl|];
    intros H; inversion H. apply unicode_decode_message.
Qed.

Lemma open_message tree e :
  open_result tree = inl e -> proper_message (py_str e).
Proof.
  unfold open_result.
  destruct (tree !! PATH) as [[|f]|]; [| destruct (readable f) |];
    try discriminate; intros H; inversion H;
    (split; [discriminate | vm_compute; reflexivity]).
Qed.

(** With lawful rules the message of a failed [tomllib.load] is not
    empty and is one line. *)
Lemma load_message R {HR : Tomllib.Lawful R} f e :
  load_result R f = Some (inl e) -> proper_message (py_str e).
Proof.
  unfold load_result. destruct (io_error f).
  - intros H; inversion H. split; [discriminate | reflexivity].
  - destruct (Utf8.decode (content f)) as [e'|s] eqn:Edec.
    + intros H; inversion H; subst. now apply decode_message in Edec.
    + intros H. now apply (@loads_error R HR) in H.
Qed.

End MessageFacts.

(** ** The imports and the whole program *)

Module StartupFacts.

Import PyExc Runtime Script Startup Outcome TomllibFacts ScriptFacts.








End StartupFacts.

(** ** The properties of the script *)

Import PyExc Runtime Script Outcome Examples.
Import ScriptFacts MessageFacts BoolRulesFacts StartupFacts.

Lemma tree_with_lookup b : tree_with b !! PATH = Some (Regular (the_file b)).
Proof. apply lookup_singleton_eq. Qed.

(** C1. When the file at the fixed path exists, can be opened and read,
    and its bytes decode as a TOML document, standard output is exactly the
    line [TOML is valid] and the process exits with status 0. *)
Theorem valid_file_prints_valid (R : Tomllib.Rules)
    (tree : gmap string node) (f : file) :
  tree !! PATH = Some (Regular f) ->
  readable f = true ->
  io_error f = false ->
  valid_toml R (content f) ->
  exists st, run R tree = Some (Exit 0, st) /\
             stdout st = Text.line "TOML is valid".
Proof.
  intros Hf Hr Hio (s & out & Hdec & Hloads).
  rewrite run_verdict. unfold verdict.
  rewrite (readable_file_opens _ _ Hf Hr).
  unfold load_result. rewrite Hio, Hdec, Hloads.
  eexists. split; reflexivity.
Qed.

Lemma valid_file_prints_valid_witness :
  exists st,
    run BoolRules.rules (tree_with (list_byte_of_string "enabled = true"))
    = Some (Exit 0, st) /\
    stdout st = Text.line "TOML is valid".
Proof.
  eapply valid_file_prints_valid.
  - apply tree_with_lookup.
  - reflexivity.
  - reflexivity.
  - eexists _, _. split; vm_compute; reflexivity.
Defined.

(** C2. When opening or reading the file fails, or decoding its bytes
    fails, the exception is caught: standard output is the line
    [TOML error: ] followed by [str] of the exception, and the process
    exits with status 0; nothing is left uncaught. *)
Theorem failure_is_reported (R : Tomllib.Rules)
    (tree : gmap string node) (e : exn) :
  open_fails tree e \/ load_fails R tree e ->
  exists st, run R tree = Some (Exit 0, st) /\
             stdout st = Text.line ("TOML error: " ++ py_str e).
Proof.
  intros [Hopen | Hload]; rewrite run_verdict; unfold verdict.
  - apply open_fails_result in Hopen. rewrite Hopen.
    eexists. split; reflexivity.
  - apply load_fails_result in Hload. destruct Hload as (f & Hopen & Hload).
    rewrite Hopen, Hload. eexists. split; reflexivity.
Qed.

Lemma failure_is_reported_witness :
  exists st,
    run BoolRules.rules (tree_with (list_byte_of_string "= 1"))
    = Some (Exit 0, st) /\
    stdout st = Text.line
      ("TOML error: " ++
       py_str (MsgExn TOMLDecodeError
                 "Invalid statement (at line 1, column 1)")).
Proof.
  apply failure_is_reported. right.
  eapply load_result_fails.
  - apply readable_file_opens; [apply tree_with_lookup | reflexivity].
  - vm_compute. reflexivity.
Defined.

(** C3. Standard output of every run is exactly one line: [TOML is valid],
    or [TOML error: ] followed by the message of the exception that [open]
    or [tomllib.load] raised. *)
Theorem stdout_is_one_line (R : Tomllib.Rules) (tree : gmap string node) :
  Tomllib.Lawful R ->
  exists t st l,
    run R tree = Some (t, st) /\
    stdout st = Text.line l /\
    Text.has_char Text.newline l = false /\
    (l = "TOML is valid" \/
     exists e, (open_fails tree e \/ load_fails R tree e) /\
               l = "TOML error: " ++ py_str e).
Proof.
  intros HR. rewrite run_verdict. unfold verdict.
  destruct (open_result tree) as [e|f] eqn:Eopen.
  - exists (Exit 0), (final_state tree None ("TOML error: " ++ py_str e)),
      ("TOML error: " ++ py_str e).
    destruct (open_message _ _ Eopen) as [_ Hline].
    repeat split.
    + rewrite TextFacts.has_char_app, Hline. reflexivity.
    + right. exists e. split; [left; now apply open_result_fails | reflexivity].
  - destruct (load_result_returns R f) as [r Hr]. rewrite Hr.
    destruct r as [e|out].
    + exists (Exit 0), (final_state tree (Some f) ("TOML error: " ++ py_str e)),
        ("TOML error: " ++ py_str e).
      destruct (load_message _ _ _ Hr) as [_ Hline].
      repeat split.
      * rewrite TextFacts.has_char_app, Hline. reflexivity.
      * right. exists e.
        split; [right; now apply (load_result_fails R tree f) | reflexivity].
    + exists (Exit 0), (final_state tree (Some f) "TOML is valid"),
        "TOML is valid".
      repeat split. now left.
Qed.

Lemma stdout_is_one_line_witness :
  exists t st l,
    run BoolRules.rules (tree_with (list_byte_of_string "enabled = true"))
    = Some (t, st) /\
    stdout st = Text.line l /\
    Text.has_char Text.newline l = false /\
    (l = "TOML is valid" \/
     exists e,
       (open_fails (tree_with (list_byte_of_string "enabled = true")) e \/
        load_fails BoolRules.rules
          (tree_with (list_byte_of_string "enabled = true")) e) /\
       l = "TOML error: " ++ py_str e).
Proof.
  apply (stdout_is_one_line BoolRules.rules
           (tree_with (list_byte_of_string "enabled = true")) rules_lawful).
Defined.

(** C4. For a file whose content is not valid TOML, standard output is the
    line [TOML error: ] followed by a message that is not empty; for a
    missing file it is [TOML error: ] followed by the text of the
    [FileNotFoundError], which names the errno, the condition and the path;
    the exit status is 0 in both cases. *)
Theorem malformed_or_missing_is_reported (R : Tomllib.Rules)
    (tree : gmap string node) :
  Tomllib.Lawful R ->
  (forall f,
     tree !! PATH = Some (Regular f) ->
     readable f = true ->
     io_error f = false ->
     ~ valid_toml R (content f) ->
     exists msg st,
       run R tree = Some (Exit 0, st) /\
       stdout st = Text.line ("TOML error: " ++ msg) /\
       msg <> "") /\
  (tree !! PATH = None ->
   exists st,
     run R tree = Some (Exit 0, st) /\
     stdout st = Text.line
       "TOML error: [Errno 2] No such file or directory: '.gemini/commands/refactor/surgical.toml'").
Proof.
  intros HR. split.
  - intros f Hf Hr Hio Hinvalid.
    rewrite run_verdict. unfold verdict.
    rewrite (readable_file_opens _ _ Hf Hr).
    destruct (load_result_returns R f) as [r Hres]. rewrite Hres.
    destruct r as [e|out].
    + destruct (load_message _ _ _ Hres) as [Hne _].
      exists (py_str e). eexists. repeat split. exact Hne.
    + exfalso. apply Hinvalid. unfold load_result in Hres.
      rewrite Hio in Hres.
      destruct (Utf8.decode (content f)) as [e|s] eqn:Edec; [discriminate|].
      exists s, out. split; [exact Edec | exact Hres].
  - intros Hmissing. rewrite run_verdict. unfold verdict, open_result.
    rewrite Hmissing. eexists. split; reflexivity.
Qed.

Lemma malformed_or_missing_is_reported_witness :
  (exists msg st,
     run BoolRules.rules (tree_with (list_byte_of_string "= 1"))
     = Some (Exit 0, st) /\
     stdout st = Text.line ("TOML error: " ++ msg) /\ msg <> "") /\
  (exists st,
     run BoolRules.rules ∅ = Some (Exit 0, st) /\
     stdout st = Text.line
       "TOML error: [Errno 2] No such file or directory: '.gemini/commands/refactor/surgical.toml'").
Proof.
  split.
  - eapply (proj1 (malformed_or_missing_is_reported BoolRules.rules _
                     rules_lawful)).
    + apply tree_with_lookup.
    + reflexivity.
    + reflexivity.
    + intros (s & out & Hdec & Hloads).
      vm_compute in Hdec. inversion Hdec; subst.
      vm_compute in Hloads. discriminate Hloads.
  - apply (proj2 (malformed_or_missing_is_reported BoolRules.rules ∅
                    rules_lawful)).
    apply lookup_empty.
Defined.

(** C5. A file of zero bytes is valid TOML: [loads] returns the [Output]
    it started with, a document without keys, whatever the statement rules
    are; the script prints [TOML is valid] and exits with status 0. *)
Theorem empty_file_is_valid (R : Tomllib.Rules)
    (tree : gmap string node) (f : file) :
  tree !! PATH = Some (Regular f) ->
  readable f = true ->
  io_error f = false ->
  content f = [] ->
  Utf8.decode (content f) = inr [] /\
  Tomllib.loads R [] = Some (inr (Tomllib.new_output R)) /\
  exists st, run R tree = Some (Exit 0, st) /\
             stdout st = Text.line "TOML is valid".
Proof.
  intros Hf Hr Hio Hempty. rewrite Hempty.
  split; [reflexivity|]. split; [reflexivity|].
  rewrite run_verdict. unfold verdict.
  rewrite (readable_file_opens _ _ Hf Hr).
  unfold load_result. rewrite Hio, Hempty.
  eexists. split; reflexivity.
Qed.

Lemma empty_file_is_valid_witness :
  Utf8.decode [] = inr [] /\
  Tomllib.loads BoolRules.rules [] = Some (inr []) /\
  exists st, run BoolRules.rules (tree_with []) = Some (Exit 0, st) /\
             stdout st = Text.line "TOML is valid".
Proof.
  apply (empty_file_is_valid BoolRules.rules (tree_with []) _
           (tree_with_lookup [])); reflexivity.
Defined.

(** C6. A run that follows another on the same, unmodified file prints
    the same text and ends the same way: the second run may start on any
    file system that shows the file at the fixed path as the first run
    left it, whatever else differs. *)
Theorem successive_runs_agree (R : Tomllib.Rules)
    (tree tree' : gmap string node) (t : termination) (st : State) :
  run R tree = Some (t, st) ->
  observed tree' = observed (fs st) ->
  exists st', run R tree' = Some (t, st') /\ stdout st' = stdout st.
Proof.
  rewrite !run_verdict. intros Hrun Hsame.
  destruct (verdict R tree) as [[opened l]|] eqn:Ev; [|discriminate].
  inversion Hrun; subst. cbn [fs final_state] in Hsame.
  pose proof (verdict_observed R tree' tree Hsame) as Hline.
  rewrite Ev in Hline.
  destruct (verdict R tree') as [[opened' l']|]; [|discriminate].
  inversion Hline; subst. eexists. split; reflexivity.
Qed.

Lemma successive_runs_agree_witness :
  exists st',
    run BoolRules.rules
      (<[ "README.md" := Directory ]>
         (tree_with (list_byte_of_string "enabled = true")))
    = Some (Exit 0, st') /\
    stdout st' = Text.line "TOML is valid".
Proof.
  apply (successive_runs_agree BoolRules.rules
           (tree_with (list_byte_of_string "enabled = true")) _ (Exit 0)
           (final_state (tree_with (list_byte_of_string "enabled = true"))
              (Some (the_file (list_byte_of_string "enabled = true")))
              "TOML is valid")).
  - rewrite run_verdict. vm_compute. reflexivity.
  - vm_compute. reflexivity.
Defined.






(** C8. At the end of a run every file object is closed; when [open]
    returned a file object, it is in the table, closed, and the close is
    among the effects of the process, whether [tomllib.load] returned or
    raised. *)
Theorem opened_file_is_closed (R : Tomllib.Rules) (tree : gmap string node) :
  Tomllib.Lawful R ->
  exists t st,
    run R tree = Some (t, st) /\
    Forall (fun fo => fo_closed fo = true) (files st) /\
    (forall fd st1,
       open_rb PATH (initial tree) = Some (Ok fd, st1) ->
       exists fo, files st !! fd = Some fo /\
                  fo_name fo = PATH /\
                  fo_closed fo = true /\
                  In (Close fd) (effects st)).
Proof.
  intros HR. rewrite run_verdict.
  destruct (verdict_returns R tree) as (opened & l & Hv). rewrite Hv.
  exists (Exit 0), (final_state tree opened l).
  split; [reflexivity|]. split.
  - destruct opened; repeat constructor.
  - intros fd st1 Hopen. unfold verdict in Hv.
    destruct (open_result tree) as [e|f] eqn:Eopen.
    + apply open_rb_raises in Eopen. destruct Eopen as [Eopen _]. congruence.
    + apply open_rb_returns in Eopen. rewrite Eopen in Hopen.
      inversion Hopen; subst.
      assert (opened = Some f) as ->
        by (destruct (load_result R f) as [[e|out]|]; congruence).
      exists (closed_file f). repeat split. simpl. auto.
Qed.

Lemma opened_file_is_closed_witness :
  exists t st,
    run BoolRules.rules (tree_with [xff]) = Some (t, st) /\
    Forall (fun fo => fo_closed fo = true) (files st) /\
    (forall fd st1,
       open_rb PATH (initial (tree_with [xff])) = Some (Ok fd, st1) ->
       exists fo, files st !! fd = Some fo /\
                  fo_name fo = PATH /\
                  fo_closed fo = true /\
                  In (Close fd) (effects st)).
Proof.
  apply (opened_file_is_closed BoolRules.rules (tree_with [xff]) rules_lawful).
Defined.

(** C9. When the bytes of the file are not valid UTF-8, [bytes.decode]
    raises a [UnicodeDecodeError]; it is caught like any other failure:
    standard output is the line [TOML error: ] followed by its message and
    the process exits with status 0. *)
Theorem undecodable_bytes_are_reported (R : Tomllib.Rules)
    (tree : gmap string node) (f : file) (e : exn) :
  tree !! PATH = Some (Regular f) ->
  readable f = true ->
  io_error f = false ->
  Utf8.decode (content f) = inl e ->
  class_of e = UnicodeDecodeError /\
  isinstance e Exception = true /\
  exists st, run R tree = Some (Exit 0, st) /\
             stdout st = Text.line ("TOML error: " ++ py_str e).
Proof.
  intros Hf Hr Hio Hdec.
  pose proof (decode_raises _ _ Hdec) as Hclass.
  split; [exact Hclass|]. split.
  - unfold isinstance. rewrite Hclass. reflexivity.
  - rewrite run_verdict. unfold verdict.
    rewrite (readable_file_opens _ _ Hf Hr).
    unfold load_result. rewrite Hio, Hdec. eexists. split; reflexivity.
Qed.

Lemma undecodable_bytes_are_reported_witness :
  class_of (UnicodeDecodeErr "utf-8" [xff] 0 1 "invalid start byte")
  = UnicodeDecodeError /\
  isinstance (UnicodeDecodeErr "utf-8" [xff] 0 1 "invalid start byte")
    Exception = true /\
  exists st,
    run BoolRules.rules (tree_with [xff]) = Some (Exit 0, st) /\
    stdout st = Text.line
      ("TOML error: " ++
       py_str (UnicodeDecodeErr "utf-8" [xff] 0 1 "invalid start byte")).
Proof.
  apply (undecodable_bytes_are_reported BoolRules.rules (tree_with [xff]) _ _
           (tree_with_lookup [xff])); reflexivity.
Defined.

(** The classes that derive from [BaseException] without deriving from
    [Exception]. *)
Lemma outside_Exception :
  issubclass BaseException Exception = false /\
  issubclass KeyboardInterrupt Exception = false /\
  issubclass SystemExit Exception = false /\
  issubclass GeneratorExit Exception = false.
Proof. repeat split. Qed.

(** C10. The handler catches instances of [Exception] and nothing else.
    An exception raised by [open] or by [load] that is not an instance of
    [Exception] leaves the program uncaught, and the script prints nothing;
    one that is an instance is reported on standard output and the process
    exits with status 0. *)
Theorem only_Exception_is_caught {D : Type} (open_ : M nat)
    (load_ : nat -> M D) (tree : gmap string node) (e : exn) (st_r : State) :
  raised_in_try open_ load_ (initial tree) e st_r ->
  exists st,
    run_process (script open_ load_) tree
    = Some (if isinstance e Exception then Exit 0 else Uncaught e, st) /\
    stdout st
    = if isinstance e Exception
      then stdout st_r ++ Text.line ("TOML error: " ++ py_str e)
      else stdout st_r.
Proof.
  intros [Hopen | (f & st1 & Hopen & Hload)]; unfold run_process.
  - rewrite (script_open_raises _ _ _ _ _ Hopen). unfold handler.
    destruct (isinstance e Exception); eexists; split; reflexivity.
  - rewrite (script_load_raises _ _ _ _ _ _ _ Hopen Hload). unfold handler.
    destruct (isinstance e Exception); eexists; (split; [reflexivity|]);
      cbn [print stdout set_stdout]; now rewrite ?after_close_stdout.
Qed.

Lemma only_Exception_is_caught_witness :
  exists st,
    run_process (script (open_rb PATH) interrupted_load)
      (tree_with (list_byte_of_string "enabled = true"))
    = Some (Uncaught (BareExn KeyboardInterrupt), st) /\
    stdout st = "".
Proof.
  destruct (only_Exception_is_caught (open_rb PATH) interrupted_load
              (tree_with (list_byte_of_string "enabled = true"))
              (BareExn KeyboardInterrupt)
              (loaded_state (tree_with (list_byte_of_string "enabled = true"))
                 (the_file (list_byte_of_string "enabled = true"))))
    as (st & Hrun & Hout).
  - right. eexists _, _. split; vm_compute; reflexivity.
  - exists st. split; [exact Hrun | exact Hout].
Defined.

(** ** Further properties of the script *)

Lemma open_result_file tree f :
  open_result tree = inr f ->
  tree !! PATH = Some (Regular f) /\ readable f = true.
Proof.
  unfold open_result. destruct (tree !! PATH) as [[|f']|]; try discriminate.
  destruct (readable f') eqn:Hr; [|discriminate].
  intros H; inversion H; subst. split; [reflexivity | exact Hr].
Qed.

Lemma load_result_valid R f out :
  load_result R f = Some (inr out) ->
  io_error f = false /\ valid_toml R (content f).
Proof.
  unfold load_result. destruct (io_error f); [discriminate|].
  destruct (Utf8.decode (content f)) as [e|s] eqn:Edec; [discriminate|].
  intros H. split; [reflexivity|]. exists s, out. split; [exact Edec | exact H].
Qed.

Lemma error_line_is_not_valid_line msg :
  Text.line ("TOML error: " ++ msg) <> Text.line "TOML is valid".
Proof. unfold Text.line. simpl. discriminate. Qed.

(** The fixed path holds a file that can be opened and read and whose
    bytes decode as a TOML document. *)
Definition valid_file_at_path (R : Tomllib.Rules) (tree : gmap string node)
  : Prop :=
  exists f, tree !! PATH = Some (Regular f) /\ readable f = true /\
            io_error f = false /\ valid_toml R (content f).

Lemma verdict_valid R tree opened :
  verdict R tree = Some (opened, "TOML is valid") ->
  valid_file_at_path R tree.
Proof.
  unfold verdict. destruct (open_result tree) as [e|f] eqn:Eopen.
  - intros H. exfalso. injection H as _ Hl.
    revert Hl. simpl. discriminate.
  - apply open_result_file in Eopen. destruct Eopen as [Hf Hr].
    destruct (load_result R f) as [[e|out]|] eqn:Eload; [| |discriminate].
    + intros H. exfalso. injection H as _ Hl.
      revert Hl. simpl. discriminate.
    + intros _. apply load_result_valid in Eload.
      destruct Eload as [Hio Hvalid]. exists f. auto.
Qed.

Lemma valid_file_verdict R tree :
  valid_file_at_path R tree ->
  exists f, verdict R tree = Some (Some f, "TOML is valid").
Proof.
  intros (f & Hf & Hr & Hio & s & out & Hdec & Hloads).
  exists f. unfold verdict. rewrite (readable_file_opens _ _ Hf Hr).
  unfold load_result. now rewrite Hio, Hdec, Hloads.
Qed.

Lemma verdict_error R tree opened l :
  verdict R tree = Some (opened, l) -> l <> "TOML is valid" ->
  exists e, (open_fails tree e \/ load_fails R tree e) /\
            l = "TOML error: " ++ py_str e.
Proof.
  unfold verdict. destruct (open_result tree) as [e|f] eqn:Eopen.
  - intros H _. inversion H. exists e.
    split; [left; now apply open_result_fails | reflexivity].
  - destruct (load_result R f) as [[e|out]|] eqn:Eload; [| |discriminate].
    + intros H _. inversion H. exists e.
      split; [right; now apply (load_result_fails R tree f) | reflexivity].
    + intros H Hne. inversion H. congruence.
Qed.

(** X1. The script reports no false positive. Every run ends in one of
    two ways that exclude each other: the fixed path holds a file that can
    be opened and read and whose bytes decode as a TOML document, no
    exception is raised in the [try] block and the line printed is
    [TOML is valid]; or there is no such file, [open] or [tomllib.load]
    raised an exception, and the line printed is the [TOML error: ] line of
    that exception, which is not the line [TOML is valid]. *)
Theorem valid_line_iff_valid_file (R : Tomllib.Rules)
    (tree : gmap string node) :
  Tomllib.Lawful R ->
  exists st,
    run R tree = Some (Exit 0, st) /\
    ((valid_file_at_path R tree /\
      (forall e, ~ (open_fails tree e \/ load_fails R tree e)) /\
      stdout st = Text.line "TOML is valid")
     \/
     (~ valid_file_at_path R tree /\
      (exists e, (open_fails tree e \/ load_fails R tree e) /\
                 stdout st = Text.line ("TOML error: " ++ py_str e)) /\
      stdout st <> Text.line "TOML is valid")).
Proof.
  intros HR. rewrite run_verdict.
  destruct (verdict_returns R tree) as (opened & l & Hv). rewrite Hv.
  eexists. split; [reflexivity|]. cbn [stdout final_state].
  destruct (string_dec l "TOML is valid") as [-> | Hne].
  - left. pose proof (verdict_valid R tree opened Hv) as Hvalid.
    split; [exact Hvalid|]. split; [|reflexivity].
    intros e [Hopen | Hload].
    + apply open_fails_result in Hopen. unfold verdict in Hv.
      rewrite Hopen in Hv. exfalso. injection Hv as _ Hl.
      revert Hl. simpl. discriminate.
    + apply load_fails_result in Hload.
      destruct Hload as (f & Hopen & Hload). unfold verdict in Hv.
      rewrite Hopen, Hload in Hv. exfalso. injection Hv as _ Hl.
      revert Hl. simpl. discriminate.
  - right. destruct (verdict_error R tree opened l Hv Hne) as (e & He & ->).
    split; [|split].
    + intros Hvalid. apply valid_file_verdict in Hvalid.
      destruct Hvalid as (f & Hf). rewrite Hf in Hv.
      exfalso. injection Hv as _ Hl. revert Hl. simpl. discriminate.
    + exists e. split; [exact He | reflexivity].
    + apply error_line_is_not_valid_line.
Qed.

(** A file that is not valid TOML: the second way. *)
Lemma valid_line_iff_valid_file_witness :
  exists st,
    run BoolRules.rules (tree_with (list_byte_of_string "= 1"))
    = Some (Exit 0, st) /\
    ~ valid_file_at_path BoolRules.rules
        (tree_with (list_byte_of_string "= 1")) /\
    stdout st
    = Text.line "TOML error: Invalid statement (at line 1, column 1)" /\
    stdout st <> Text.line "TOML is valid".
Proof.
  destruct (valid_line_iff_valid_file BoolRules.rules
              (tree_with (list_byte_of_string "= 1")) rules_lawful)
    as (st & Hrun & [(_ & _ & Hout) | (Hinvalid & _ & Hne)]).
  - exfalso. rewrite run_verdict in Hrun. vm_compute in Hrun.
    inversion Hrun; subst. vm_compute in Hout. discriminate Hout.
  - exists st. split; [exact Hrun|]. split; [exact Hinvalid|].
    split; [|exact Hne].
    rewrite run_verdict in Hrun. vm_compute in Hrun.
    inversion Hrun; subst. vm_compute. reflexivity.
Defined.

(** X2. Whatever is at the fixed path, the process ends and exits with
    status 0: the exit status says nothing about the file, only the printed
    line does. *)
Theorem exit_status_is_always_zero (R : Tomllib.Rules)
    (tree : gmap string node) :
  Tomllib.Lawful R ->
  exists st, run R tree = Some (Exit 0, st).
Proof.
  intros HR. rewrite run_verdict.
  destruct (verdict_returns R tree) as (opened & l & ->). eauto.
Qed.

Lemma exit_status_is_always_zero_witness :
  exists st, run BoolRules.rules {[ PATH := Directory ]} = Some (Exit 0, st).
Proof.
  apply (exit_status_is_always_zero BoolRules.rules _ rules_lawful).
Defined.

(** X3. When the fixed path is a directory, or a file the process may not
    read, [open] fails and the printed line carries the errno, the
    condition and the path; no file object exists, the bytes of the file are
    never read, and the process does nothing but the attempt to open and
    the write of the line. *)
Theorem unopenable_path_is_reported (R : Tomllib.Rules)
    (tree : gmap string node) :
  (tree !! PATH = Some Directory \/
   exists f, tree !! PATH = Some (Regular f) /\ readable f = false) ->
  exists st,
    run R tree = Some (Exit 0, st) /\
    stdout st = Text.line
      (match tree !! PATH with
       | Some Directory =>
           "TOML error: [Errno 21] Is a directory: '.gemini/commands/refactor/surgical.toml'"
       | _ =>
           "TOML error: [Errno 13] Permission denied: '.gemini/commands/refactor/surgical.toml'"
       end) /\
    files st = [] /\
    effects st = [OpenRead PATH; WriteStdout (stdout st)].
Proof.
  intros [Hdir | (f & Hf & Hr)]; rewrite run_verdict;
    unfold verdict, open_result.
  - rewrite Hdir. eexists. repeat split.
  - rewrite Hf, Hr. eexists. repeat split.
Qed.

Lemma unopenable_path_is_reported_witness :
  exists st,
    run BoolRules.rules {[ PATH := Directory ]} = Some (Exit 0, st) /\
    stdout st = Text.line
      "TOML error: [Errno 21] Is a directory: '.gemini/commands/refactor/surgical.toml'" /\
    files st = [] /\
    effects st = [OpenRead PATH; WriteStdout (stdout st)].
Proof.
  destruct (unopenable_path_is_reported BoolRules.rules {[ PATH := Directory ]})
    as (st & Hrun & Hout & Hfiles & Heff).
  - left. apply lookup_singleton_eq.
  - exists st. repeat split; assumption.
Defined.

Lemma after_close_closed fd st fo :
  files st !! fd = Some fo ->
  exists fo', files (after_close fd st) !! fd = Some fo' /\
              fo_closed fo' = true /\ fo_name fo' = fo_name fo.
Proof.
  intros Hfo. unfold after_close, close. rewrite Hfo.
  destruct (fo_closed fo) eqn:Hclosed.
  - exists fo. auto.
  - eexists. cbn [files set_files log]. split.
    + apply list_lookup_insert_eq. now apply lookup_lt_Some in Hfo.
    + split; reflexivity.
Qed.

(** X4. The [with] statement closes the file on every way out of the
    [try] block, also when the exception is one the handler does not catch:
    if [open] returned a file object and [load] raised any exception,
    leaving the object in the table, then when the script ends (reporting
    the exception, or letting it through) that file object is closed. *)
Theorem file_is_closed_whatever_is_raised {D : Type} (open_ : M nat)
    (load_ : nat -> M D) (tree : gmap string node)
    (fd : nat) (st1 : State) (e : exn) (st2 : State) (fo : file_obj) :
  open_ (initial tree) = Some (Ok fd, st1) ->
  load_ fd st1 = Some (Raise e, st2) ->
  files st2 !! fd = Some fo ->
  exists t st fo',
    run_process (script open_ load_) tree = Some (t, st) /\
    files st !! fd = Some fo' /\
    fo_closed fo' = true /\
    fo_name fo' = fo_name fo.
Proof.
  intros Hopen Hload Hfo. unfold run_process.
  rewrite (script_load_raises _ _ _ _ _ _ _ Hopen Hload). unfold handler.
  destruct (after_close_closed fd st2 fo Hfo) as (fo' & Hfo' & Hclosed & Hname).
  destruct (isinstance e Exception).
  - exists (Exit 0). eexists. exists fo'. cbn. repeat split; assumption.
  - exists (Uncaught e). eexists. exists fo'. repeat split; assumption.
Qed.

Lemma file_is_closed_whatever_is_raised_witness :
  exists t st fo',
    run_process (script (open_rb PATH) interrupted_load)
      (tree_with (list_byte_of_string "enabled = true"))
    = Some (t, st) /\
    files st !! 0 = Some fo' /\
    fo_closed fo' = true /\
    fo_name fo' = PATH.
Proof.
  eapply (file_is_closed_whatever_is_raised (open_rb PATH) interrupted_load
            (tree_with (list_byte_of_string "enabled = true")) 0 _
            (BareExn KeyboardInterrupt)
            (loaded_state (tree_with (list_byte_of_string "enabled = true"))
               (the_file (list_byte_of_string "enabled = true")))
            {| fo_name := PATH;
               fo_data := list_byte_of_string "enabled = true";
               fo_io_error := false; fo_pos := 14; fo_closed := false |}).
  - vm_compute. reflexivity.
  - vm_compute. reflexivity.
  - reflexivity.
Defined.

(** ** Further properties: what the decoder makes of the file *)

Import Documents.

Lemma decode_from_ascii bs : forall pos,
  forallb is_ascii bs = true ->
  Utf8.decode_from bs pos = inr (map Utf8.bv bs).
Proof.
  induction bs as [|b bs IH]; intros pos Hascii; [reflexivity|].
  cbn [forallb] in Hascii. apply andb_prop in Hascii.
  destruct Hascii as [Hb Hbs]. unfold is_ascii in Hb.
  cbn [Utf8.decode_from map]. rewrite Hb, (IH _ Hbs). reflexivity.
Qed.

Lemma lookup_regular_inj (tree : gmap string node) f f' :
  tree !! PATH = Some (Regular f) -> open_result tree = inr f' -> f' = f.
Proof.
  intros Hf Hopen. apply open_result_file in Hopen.
  destruct Hopen as [Hf' _]. congruence.
Qed.

(** X5. On a file whose bytes are all ASCII the decoding step cannot
    fail: [bytes.decode] returns the bytes themselves as text, so
    [tomllib.load] raises exactly what [tomllib.loads] raises on that
    text, and the script prints the error line of that exception. *)
Theorem ascii_file_always_decodes (R : Tomllib.Rules)
    (tree : gmap string node) (f : file) :
  tree !! PATH = Some (Regular f) ->
  readable f = true ->
  io_error f = false ->
  forallb is_ascii (content f) = true ->
  Utf8.decode (content f) = inr (map Utf8.bv (content f)) /\
  forall e,
    load_fails R tree e <->
    Tomllib.loads R (map Utf8.bv (content f)) = Some (inl e).
Proof.
  intros Hf Hr Hio Hascii.
  assert (Hdec : Utf8.decode (content f) = inr (map Utf8.bv (content f))).
  { unfold Utf8.decode. now rewrite decode_from_ascii. }
  split; [exact Hdec|].
  intros e. split.
  - intros Hfails. apply load_fails_result in Hfails.
    destruct Hfails as (f' & Hopen & Hload).
    rewrite (lookup_regular_inj tree f f' Hf Hopen) in Hload.
    unfold load_result in Hload. now rewrite Hio, Hdec in Hload.
  - intros Hloads. apply (load_result_fails R tree f).
    + now apply readable_file_opens.
    + unfold load_result. now rewrite Hio, Hdec.
Qed.

Lemma ascii_file_always_decodes_witness :
  Utf8.decode (list_byte_of_string "= 1")
  = inr (map Utf8.bv (list_byte_of_string "= 1")) /\
  forall e,
    load_fails BoolRules.rules (tree_with (list_byte_of_string "= 1")) e <->
    Tomllib.loads BoolRules.rules (map Utf8.bv (list_byte_of_string "= 1"))
    = Some (inl e).
Proof.
  apply (ascii_file_always_decodes BoolRules.rules
           (tree_with (list_byte_of_string "= 1")) _
           (tree_with_lookup _)); reflexivity.
Defined.

Lemma ws_not_cr w : Tomllib.TOML_WS w = true -> (w =? 13)%N = false.
Proof.
  unfold Tomllib.TOML_WS. intros H. apply orb_prop in H.
  destruct H as [H | H]; apply N.eqb_eq in H; subst; reflexivity.
Qed.

Lemma ws_not_lf w : Tomllib.TOML_WS w = true -> (w =? Tomllib.LF)%N = false.
Proof.
  unfold Tomllib.TOML_WS. intros H. apply orb_prop in H.
  destruct H as [H | H]; apply N.eqb_eq in H; subst; reflexivity.
Qed.

Lemma replace_crlf_cons c rest :
  (c =? 13)%N = false ->
  Tomllib.replace_crlf (c :: rest) = c :: Tomllib.replace_crlf rest.
Proof.
  intros Hc. cbn [Tomllib.replace_crlf]. destruct rest as [|d r]; [reflexivity|].
  rewrite Hc. reflexivity.
Qed.

Lemma replace_crlf_ws ws t :
  forallb Tomllib.TOML_WS ws = true ->
  Tomllib.replace_crlf (ws ++ t)%list = (ws ++ Tomllib.replace_crlf t)%list.
Proof.
  induction ws as [|w ws IH]; intros Hws; [reflexivity|].
  cbn [forallb] in Hws. apply andb_prop in Hws. destruct Hws as [Hw Hws].
  change ((w :: ws) ++ t)%list with (w :: (ws ++ t))%list.
  rewrite replace_crlf_cons by now apply ws_not_cr.
  now rewrite IH.
Qed.

Lemma skip_chars_in_app chars ws c r : forall p,
  forallb chars ws = true -> chars c = false ->
  Tomllib.skip_chars_in (ws ++ c :: r)%list p chars = p + length ws.
Proof.
  induction ws as [|w ws IH]; intros p Hws Hc; cbn [app Tomllib.skip_chars_in].
  - rewrite Hc. simpl. lia.
  - cbn [forallb] in Hws. apply andb_prop in Hws. destruct Hws as [Hw Hws].
    rewrite Hw, IH by assumption. simpl. lia.
Qed.

Lemma count_lf_ws ws t :
  forallb Tomllib.TOML_WS ws = true ->
  Tomllib.count_lf (ws ++ t)%list (length ws) = 0.
Proof.
  intros Hws. unfold Tomllib.count_lf. rewrite take_app_length.
  induction ws as [|w ws IH]; [reflexivity|].
  cbn [forallb] in Hws. apply andb_prop in Hws. destruct Hws as [Hw Hws].
  rewrite filter_cons_False; [now apply IH|].
  rewrite (ws_not_lf w Hw). discriminate.
Qed.

(** The loop on a text whose first character after leading blanks cannot
    begin a statement. *)
Lemma statements_invalid_start R fuel ws c rest out header :
  forallb Tomllib.TOML_WS ws = true ->
  Tomllib.TOML_WS c = false ->
  (c =? Tomllib.LF)%N = false ->
  statement_start c = false ->
  Tomllib.statements R (S fuel) (ws ++ c :: rest)%list 0 out header
  = Some (inl (MsgExn TOMLDecodeError
                 ("Invalid statement (at line 1, column " ++
                  Text.dec (length ws + 1) ++ ")"))).
Proof.
  intros Hws Hc Hlf Hstart. unfold statement_start in Hstart.
  apply orb_false_elim in Hstart. destruct Hstart as [Hstart Hhash].
  apply orb_false_elim in Hstart. destruct Hstart as [Hkey Hbracket].
  cbn [Tomllib.statements]. unfold Tomllib.skip_chars.
  change (drop 0 (ws ++ c :: rest)%list) with (ws ++ c :: rest)%list.
  rewrite skip_chars_in_app by assumption. cbn [Nat.add].
  rewrite list_lookup_middle by reflexivity.
  rewrite Hlf. unfold Tomllib.parse_rules. rewrite Hkey, Hbracket, Hhash.
  cbn [negb]. unfold Tomllib.suffixed_err, Tomllib.coord_repr.
  assert (Hlen : (length (ws ++ c :: rest)%list <=? length ws) = false).
  { apply Nat.leb_gt. rewrite length_app. simpl. lia. }
  rewrite Hlen, count_lf_ws by assumption. reflexivity.
Qed.

(** X6. A file whose first character after leading spaces and tabs cannot
    begin a statement (it is no key character, quote, bracket, hash or line
    end) is reported as [Invalid statement] at line 1 and the column of
    that character, whatever follows it. A file that begins with a byte
    order mark is such a file. *)
Theorem invalid_first_character_is_reported (R : Tomllib.Rules)
    (tree : gmap string node) (f : file) (ws : list N) (c : N)
    (rest : list N) :
  tree !! PATH = Some (Regular f) ->
  readable f = true ->
  io_error f = false ->
  Utf8.decode (content f) = inr (ws ++ c :: rest)%list ->
  forallb Tomllib.TOML_WS ws = true ->
  Tomllib.TOML_WS c = false ->
  (c =? Tomllib.LF)%N = false ->
  (c =? 13)%N = false ->
  statement_start c = false ->
  exists st,
    run R tree = Some (Exit 0, st) /\
    stdout st = Text.line
      ("TOML error: Invalid statement (at line 1, column " ++
       Text.dec (length ws + 1) ++ ")").
Proof.
  intros Hf Hr Hio Hdec Hws Hc Hlf Hcr Hstart.
  rewrite run_verdict. unfold verdict.
  rewrite (readable_file_opens _ _ Hf Hr).
  unfold load_result. rewrite Hio, Hdec. unfold Tomllib.loads.
  rewrite replace_crlf_ws, replace_crlf_cons by assumption.
  rewrite statements_invalid_start by assumption.
  eexists. split; reflexivity.
Qed.

Lemma invalid_first_character_is_reported_witness :
  exists st,
    run BoolRules.rules
      (tree_with ([xef; xbb; xbf] ++ list_byte_of_string "enabled = true")%list)
    = Some (Exit 0, st) /\
    stdout st
    = Text.line "TOML error: Invalid statement (at line 1, column 1)".
Proof.
  apply (invalid_first_character_is_reported BoolRules.rules _ _ [] 65279%N
           (Tomllib.codes "enabled = true") (tree_with_lookup _));
    reflexivity.
Defined.

(** *** Blank lines and comments *)

(** A comment character: legal in a comment and no line feed. *)
Definition comment_char (c : N) : bool :=
  negb (Tomllib.ILLEGAL_COMMENT_CHARS c) && negb (c =? Tomllib.LF)%N.

Definition head_outside (chars : Tomllib.charset) (t : list N) : Prop :=
  match t with
  | [] => True
  | c :: _ => chars c = false
  end.

Lemma ws_prefix rest :
  exists ws t, rest = (ws ++ t)%list /\
               forallb Tomllib.TOML_WS ws = true /\
               head_outside Tomllib.TOML_WS t.
Proof.
  induction rest as [|c r (ws & t & -> & Hws & Ht)].
  - exists [], []. repeat split.
  - destruct (Tomllib.TOML_WS c) eqn:Hc.
    + exists (c :: ws), t. cbn [forallb]. rewrite Hc, Hws. repeat split.
      exact Ht.
    + exists [], (c :: (ws ++ t)%list). repeat split. exact Hc.
Qed.

Lemma only_comments_ws ws t :
  forallb Tomllib.TOML_WS ws = true ->
  only_comments false (ws ++ t)%list = only_comments false t.
Proof.
  induction ws as [|w ws IH]; intros Hws; [reflexivity|].
  cbn [forallb] in Hws. apply andb_prop in Hws. destruct Hws as [Hw Hws].
  cbn [app only_comments]. rewrite (ws_not_lf w Hw), Hw. now apply IH.
Qed.

Lemma skip_chars_in_prefix chars ws t : forall p,
  forallb chars ws = true -> head_outside chars t ->
  Tomllib.skip_chars_in (ws ++ t)%list p chars = p + length ws.
Proof.
  induction ws as [|w ws IH]; intros p Hws Ht; cbn [app].
  - destruct t as [|c r]; cbn [Tomllib.skip_chars_in]; [simpl; lia|].
    simpl in Ht. rewrite Ht. simpl. lia.
  - cbn [forallb] in Hws. apply andb_prop in Hws. destruct Hws as [Hw Hws].
    cbn [Tomllib.skip_chars_in]. rewrite Hw, IH by assumption. simpl. lia.
Qed.

(** After the hash: the characters of the comment, then the end of the
    text or a line feed followed by more blank lines and comments. *)
Lemma comment_body r :
  only_comments true r = true ->
  exists body tail,
    r = (body ++ tail)%list /\
    forallb comment_char body = true /\
    (tail = [] \/
     exists r', tail = Tomllib.LF :: r' /\ only_comments false r' = true).
Proof.
  induction r as [|c r IH]; intros H.
  - exists [], []. repeat split. now left.
  - cbn [only_comments] in H. destruct (c =? Tomllib.LF)%N eqn:Hlf.
    + apply N.eqb_eq in Hlf. subst c.
      exists [], (Tomllib.LF :: r). repeat split. right. eauto.
    + apply andb_prop in H. destruct H as [Hlegal H].
      destruct (IH H) as (body & tail & -> & Hbody & Htail).
      exists (c :: body), tail. cbn [forallb]. unfold comment_char at 1.
      rewrite Hlegal, Hlf, Hbody. repeat split. exact Htail.
Qed.

Lemma index_in_comment body tail : forall p,
  forallb comment_char body = true ->
  (tail = [] \/ exists r', tail = Tomllib.LF :: r') ->
  Tomllib.index_in (body ++ tail)%list p [Tomllib.LF]
  = match tail with
    | [] => None
    | _ :: _ => Some (p + length body)
    end.
Proof.
  induction body as [|c body IH]; intros p Hbody Htail; cbn [app].
  - destruct Htail as [-> | (r' & ->)]; [reflexivity|].
    cbn [Tomllib.index_in Tomllib.starts_with length].
    rewrite N.eqb_refl, Nat.add_0_r. now destruct r'.
  - cbn [forallb] in Hbody. apply andb_prop in Hbody.
    destruct Hbody as [Hc Hbody]. unfold comment_char in Hc.
    apply andb_prop in Hc. destruct Hc as [_ Hlf].
    apply negb_true_iff in Hlf.
    cbn [Tomllib.index_in Tomllib.starts_with]. rewrite Hlf. cbn [andb].
    rewrite IH by assumption.
    destruct tail; [reflexivity|]. f_equal. simpl. lia.
Qed.

Lemma first_in_comment body tail : forall p,
  forallb comment_char body = true ->
  Tomllib.first_in (body ++ tail)%list p (length body)
    Tomllib.ILLEGAL_COMMENT_CHARS = None.
Proof.
  induction body as [|c body IH]; intros p Hbody; [now destruct tail|].
  cbn [forallb] in Hbody. apply andb_prop in Hbody.
  destruct Hbody as [Hc Hbody]. unfold comment_char in Hc.
  apply andb_prop in Hc. destruct Hc as [Hlegal _].
  apply negb_true_iff in Hlegal.
  cbn [app length Tomllib.first_in]. rewrite Hlegal. now apply IH.
Qed.

(** [skip_comment] at a hash whose comment has the shape above. *)
Lemma skip_comment_at_hash src pos body tail :
  drop pos src = (35%N :: body ++ tail)%list ->
  forallb comment_char body = true ->
  (tail = [] \/ exists r', tail = Tomllib.LF :: r') ->
  Tomllib.skip_comment src pos = inr (pos + 1 + length body).
Proof.
  intros Hdrop Hbody Htail.
  assert (Hlook : src !! pos = Some 35%N).
  { rewrite <- (Nat.add_0_r pos), <- lookup_drop, Hdrop. reflexivity. }
  pose proof (lookup_lt_Some _ _ _ Hlook) as Hlt.
  assert (Hdrop1 : drop (pos + 1) src = (body ++ tail)%list).
  { rewrite <- drop_drop, Hdrop. reflexivity. }
  assert (Hlen : length src = pos + 1 + length body + length tail).
  { rewrite <- (take_drop (pos + 1) src) at 1.
    rewrite length_app, length_take, Hdrop1, length_app. lia. }
  unfold Tomllib.skip_comment. rewrite Hlook.
  unfold Tomllib.skip_until, Tomllib.index.
  change (Tomllib.codes (String Text.newline EmptyString))
    with [Tomllib.LF].
  assert (Hltb : (length src <? pos + 1) = false)
    by (apply Nat.ltb_ge; lia).
  rewrite Hltb, Hdrop1, index_in_comment by assumption.
  destruct Htail as [-> | (r' & ->)].
  - rewrite Hlen. simpl length. rewrite Nat.add_0_r.
    replace (pos + 1 + length body - (pos + 1)) with (length body) by lia.
    rewrite app_nil_r.
    pose proof (first_in_comment body [] (pos + 1) Hbody) as Hfirst.
    rewrite app_nil_r in Hfirst. rewrite Hfirst. reflexivity.
  - replace (pos + 1 + length body - (pos + 1)) with (length body) by lia.
    rewrite first_in_comment by assumption. reflexivity.
Qed.

Lemma parse_rules_hash R src pos out header :
  Tomllib.parse_rules R src pos 35 out header = inr (pos, out, header).
Proof. reflexivity. Qed.

(** The statement loop on blank lines and comments returns the [Output]
    it was given. *)
Lemma statements_only_comments R fuel : forall src pos out header,
  only_comments false (drop pos src) = true ->
  length (drop pos src) < fuel ->
  Tomllib.statements R fuel src pos out header = Some (inr out).
Proof.
  induction fuel as [|fuel IH]; intros src pos out header Hdoc Hfuel; [lia|].
  destruct (ws_prefix (drop pos src)) as (ws & t & Hrest & Hws & Ht).
  rewrite Hrest in Hdoc, Hfuel. rewrite only_comments_ws in Hdoc by assumption.
  rewrite length_app in Hfuel.
  assert (Hdrop : drop (pos + length ws) src = t).
  { rewrite <- drop_drop, Hrest. apply drop_app_length. }
  assert (Hskip : Tomllib.skip_chars src pos Tomllib.TOML_WS = pos + length ws).
  { unfold Tomllib.skip_chars. rewrite Hrest.
    now apply skip_chars_in_prefix. }
  cbn [Tomllib.statements]. rewrite !Hskip.
  assert (Hlook : src !! (pos + length ws) = head t).
  { rewrite <- (Nat.add_0_r (pos + length ws)), <- lookup_drop, Hdrop.
    now destruct t. }
  rewrite Hlook. destruct t as [|c r]; [reflexivity|]. cbn [head].
  simpl in Ht. cbn [only_comments] in Hdoc. simpl length in Hfuel.
  destruct (c =? Tomllib.LF)%N eqn:Hlf.
  - apply IH.
    + rewrite <- drop_drop, Hdrop. exact Hdoc.
    + rewrite <- drop_drop, Hdrop. change (drop 1 (c :: r)) with r. lia.
  - rewrite Ht in Hdoc. destruct (c =? 35)%N eqn:Hhash; [|discriminate].
    apply N.eqb_eq in Hhash. subst c.
    destruct (comment_body r Hdoc) as (body & tail & -> & Hbody & Htail).
    assert (Htail' : tail = [] \/ exists r', tail = Tomllib.LF :: r')
      by (destruct Htail as [-> | (r' & -> & _)]; eauto).
    rewrite parse_rules_hash. cbv beta iota.
    rewrite (skip_comment_at_hash src (pos + length ws) body tail Hdrop Hbody
               Htail').
    assert (Hdrop2 : drop (pos + length ws + 1 + length body) src = tail).
    { replace (pos + length ws + 1 + length body)
        with ((pos + length ws) + length (35%N :: body)) by (simpl; lia).
      rewrite <- drop_drop, Hdrop.
      change (35%N :: body ++ tail)%list with ((35%N :: body) ++ tail)%list.
      apply drop_app_length. }
    assert (Hlook2 : src !! (pos + length ws + 1 + length body) = head tail).
    { rewrite <- (Nat.add_0_r (pos + length ws + 1 + length body)),
        <- lookup_drop, Hdrop2. now destruct tail. }
    rewrite Hlook2.
    destruct Htail as [-> | (r' & -> & Hr')]; [reflexivity|].
    cbn [head]. rewrite N.eqb_refl. cbn [negb].
    apply IH.
    + rewrite <- drop_drop, Hdrop2. exact Hr'.
    + rewrite <- drop_drop, Hdrop2.
      change (drop 1 (Tomllib.LF :: r')) with r'.
      rewrite length_app in Hfuel. simpl in Hfuel. lia.
Qed.

(** X7. A file that holds nothing but blank lines and comments is valid
    TOML, whatever the statement rules are: the rules are never called,
    [loads] returns the document without keys, and the script prints
    [TOML is valid]. *)
Theorem comments_only_file_is_valid (R : Tomllib.Rules)
    (tree : gmap string node) (f : file) (s : list N) :
  tree !! PATH = Some (Regular f) ->
  readable f = true ->
  io_error f = false ->
  Utf8.decode (content f) = inr s ->
  only_comments false (Tomllib.replace_crlf s) = true ->
  Tomllib.loads R s = Some (inr (Tomllib.new_output R)) /\
  exists st, run R tree = Some (Exit 0, st) /\
             stdout st = Text.line "TOML is valid".
Proof.
  intros Hf Hr Hio Hdec Hdoc.
  assert (Hloads : Tomllib.loads R s = Some (inr (Tomllib.new_output R))).
  { unfold Tomllib.loads. apply statements_only_comments.
    - exact Hdoc.
    - rewrite drop_0. lia. }
  split; [exact Hloads|].
  rewrite run_verdict. unfold verdict.
  rewrite (readable_file_opens _ _ Hf Hr).
  unfold load_result. rewrite Hio, Hdec, Hloads.
  eexists. split; reflexivity.
Qed.

Lemma comments_only_file_is_valid_witness :
  Tomllib.loads BoolRules.rules
    (Tomllib.codes "# surgical refactor
  # nothing yet
")
  = Some (inr []) /\
  exists st,
    run BoolRules.rules
      (tree_with (list_byte_of_string "# surgical refactor
  # nothing yet
"))
    = Some (Exit 0, st) /\
    stdout st = Text.line "TOML is valid".
Proof.
  apply (comments_only_file_is_valid BoolRules.rules _ _ _
           (tree_with_lookup _)); reflexivity.
Defined.

Lemma decode_invalid_lead b rest :
  invalid_lead b = true ->
  Utf8.decode (b :: rest)
  = inl (UnicodeDecodeErr "utf-8" (b :: rest) 0 1 "invalid start byte").
Proof.
  unfold invalid_lead, Utf8.decode. intros H.
  cbn [Utf8.decode_from].
  apply orb_prop in H. destruct H as [H | H].
  - apply andb_prop in H. destruct H as [Hlo Hhi].
    apply N.leb_le in Hlo.
    assert ((Utf8.bv b <? 128)%N = false) as -> by (apply N.ltb_ge; lia).
    rewrite Hhi. reflexivity.
  - apply N.leb_le in H.
    assert ((Utf8.bv b <? 128)%N = false) as -> by (apply N.ltb_ge; lia).
    assert ((Utf8.bv b <? 194)%N = false) as -> by (apply N.ltb_ge; lia).
    assert ((Utf8.bv b <? 224)%N = false) as -> by (apply N.ltb_ge; lia).
    assert ((Utf8.bv b <? 240)%N = false) as -> by (apply N.ltb_ge; lia).
    assert ((Utf8.bv b <? 245)%N = false) as -> by (apply N.ltb_ge; lia).
    reflexivity.
Qed.

(** X8. A file whose first byte cannot begin a UTF-8 sequence, as in a
    file saved as UTF-16 or Latin-1, is reported with the message of the
    [UnicodeDecodeError] for that byte at position 0, whatever follows; the
    TOML text is never looked at. *)
Theorem invalid_first_byte_is_reported (R : Tomllib.Rules)
    (tree : gmap string node) (f : file) (b : byte) (rest : list byte) :
  tree !! PATH = Some (Regular f) ->
  readable f = true ->
  io_error f = false ->
  content f = b :: rest ->
  invalid_lead b = true ->
  exists st,
    run R tree = Some (Exit 0, st) /\
    stdout st = Text.line
      ("TOML error: 'utf-8' codec can't decode byte 0x" ++
       Text.hex2 (N.to_nat (Utf8.bv b)) ++
       " in position 0: invalid start byte").
Proof.
  intros Hf Hr Hio Hcontent Hlead.
  rewrite run_verdict. unfold verdict.
  rewrite (readable_file_opens _ _ Hf Hr).
  unfold load_result. rewrite Hio, Hcontent, (decode_invalid_lead _ _ Hlead).
  eexists. split; reflexivity.
Qed.

Lemma invalid_first_byte_is_reported_witness :
  exists st,
    run BoolRules.rules (tree_with [xff; xfe; x61; x00]) = Some (Exit 0, st) /\
    stdout st = Text.line
      "TOML error: 'utf-8' codec can't decode byte 0xff in position 0: invalid start byte".
Proof.
  apply (invalid_first_byte_is_reported BoolRules.rules _ _ xff [xfe; x61; x00]
           (tree_with_lookup _)); reflexivity.
Defined.
